(** * IBC 02-client query commands (x/ibc/02-client/client/cli/query.go)

    A shallow embedding of the six query commands of the IBC light-client
    module of the Cosmos SDK, together with the parts of the Go standard
    library their bodies call ([strings.TrimSpace], [strconv.ParseUint],
    [errors.New], [fmt.Errorf]) and the collaborators they hand work to
    (the [utils] queries, [viper], [cobra], the CLI context).

    Go strings are byte sequences: they are modelled as [string], whose
    characters are 8-bit [ascii] values.  Go's [uint64] and [rune] are
    modelled as [Z], with the wrap-around of [uint64] written out. *)

From Stdlib Require Import ZArith Ascii String List Bool Lia.
From stdpp Require Import base strings gmap list pretty.

Open Scope Z_scope.

(** ** Bytes and slices of Go strings *)

Definition byte_val (c : ascii) : Z := Z.of_N (N_of_ascii c).

Definition byte_of (z : Z) : ascii := ascii_of_N (Z.to_N z).

(** [s[i:]] *)
Fixpoint slice_from (i : nat) (s : string) : string :=
  match i, s with
  | O, _ => s
  | S _, EmptyString => EmptyString
  | S k, String _ r => slice_from k r
  end.

(** [s[0:j]] *)
Fixpoint slice_to (j : nat) (s : string) : string :=
  match j, s with
  | O, _ => EmptyString
  | S _, EmptyString => EmptyString
  | S k, String c r => String c (slice_to k r)
  end.

(** [s[i:j]] *)
Definition slice (i j : nat) (s : string) : string :=
  slice_to (j - i) (slice_from i s).

(** [s[i]], for an index in range; 0 stands for the byte out of range, which
    no caller below reads. *)
Definition byte_at (s : string) (i : nat) : Z :=
  match String.get i s with
  | Some c => byte_val c
  | None => 0
  end.

(** ** Package unicode/utf8 *)

Module utf8.

Definition RuneError : Z := 0xFFFD.
Definition RuneSelf : Z := 0x80.
Definition MaxRune : Z := 0x10FFFF.
Definition UTFMax : nat := 4.

Definition surrogateMin : Z := 0xD800.
Definition surrogateMax : Z := 0xDFFF.

Definition maskx : Z := 0x3F.
Definition mask2 : Z := 0x1F.
Definition mask3 : Z := 0x0F.
Definition mask4 : Z := 0x07.

Definition locb : Z := 0x80.
Definition hicb : Z := 0xBF.

(** Entries of the [first] table: the high nibble indexes [acceptRanges],
    the low three bits give the length of the encoding. *)
Definition xx : Z := 0xF1.
Definition as_ : Z := 0xF0.
Definition s1 : Z := 0x02.
Definition s2 : Z := 0x13.
Definition s3 : Z := 0x03.
Definition s4 : Z := 0x23.
Definition s5 : Z := 0x34.
Definition s6 : Z := 0x04.
Definition s7 : Z := 0x44.

(** The 256-entry table [first], by the ranges of its rows. *)
Definition first (b : Z) : Z :=
  if b <? 0x80 then as_
  else if b <? 0xC2 then xx
  else if b <? 0xE0 then s1
  else if b =? 0xE0 then s2
  else if b <? 0xED then s3
  else if b =? 0xED then s4
  else if b <? 0xF0 then s3
  else if b =? 0xF0 then s5
  else if b <? 0xF4 then s6
  else if b =? 0xF4 then s7
  else xx.

(** [acceptRanges[i]], as the pair (lo, hi). *)
Definition acceptRanges (i : Z) : Z * Z :=
  if i =? 0 then (locb, hicb)
  else if i =? 1 then (0xA0, hicb)
  else if i =? 2 then (locb, 0x9F)
  else if i =? 3 then (0x90, hicb)
  else if i =? 4 then (locb, 0x8F)
  else (0, 0).

(** [utf8.DecodeRuneInString]: the rune at the head of [s] and its width
    in bytes; ([RuneError], 0) for the empty string and ([RuneError], 1)
    for an encoding that is invalid or cut short. *)
Definition DecodeRuneInString (s : string) : Z * nat :=
  let n := String.length s in
  if (n <? 1)%nat then (RuneError, 0%nat) else
  let s0 := byte_at s 0 in
  let x := first s0 in
  if as_ <=? x then
    (if x =? xx then RuneError else s0, 1%nat)
  else
  let sz := Z.to_nat (Z.land x 7) in
  let accept := acceptRanges (Z.shiftr x 4) in
  if (n <? sz)%nat then (RuneError, 1%nat) else
  let s1 := byte_at s 1 in
  if (s1 <? fst accept) || (snd accept <? s1) then (RuneError, 1%nat) else
  if (sz <=? 2)%nat then
    (Z.lor (Z.shiftl (Z.land s0 mask2) 6) (Z.land s1 maskx), 2%nat)
  else
  let s2 := byte_at s 2 in
  if (s2 <? locb) || (hicb <? s2) then (RuneError, 1%nat) else
  if (sz <=? 3)%nat then
    (Z.lor (Z.lor (Z.shiftl (Z.land s0 mask3) 12)
                  (Z.shiftl (Z.land s1 maskx) 6))
           (Z.land s2 maskx), 3%nat)
  else
  let s3 := byte_at s 3 in
  if (s3 <? locb) || (hicb <? s3) then (RuneError, 1%nat) else
  (Z.lor (Z.lor (Z.lor (Z.shiftl (Z.land s0 mask4) 18)
                       (Z.shiftl (Z.land s1 maskx) 12))
                (Z.shiftl (Z.land s2 maskx) 6))
         (Z.land s3 maskx), 4%nat).

(** [utf8.RuneStart] *)
Definition RuneStart (b : Z) : bool := negb (Z.land b 0xC0 =? 0x80).

(** The backwards scan of [DecodeLastRuneInString]:
    [for start--; start >= lim; start-- { if RuneStart(s[start]) { break } }],
    entered with [start] already lowered and with the number [left] of the
    indices from [start] down to [lim]; the result is the value of [start]
    after the loop, which is [lim - 1] when no index starts a rune. *)
Fixpoint lastRuneStart (s : string) (start : Z) (left : nat) : Z :=
  match left with
  | O => start
  | S left' =>
      if RuneStart (byte_at s (Z.to_nat start)) then start
      else lastRuneStart s (start - 1) left'
  end.

(** [utf8.DecodeLastRuneInString]: the last rune of [s] and its width. *)
Definition DecodeLastRuneInString (s : string) : Z * nat :=
  let end_ := Z.of_nat (String.length s) in
  if end_ =? 0 then (RuneError, 0%nat) else
  let start := end_ - 1 in
  let r := byte_at s (Z.to_nat start) in
  if r <? RuneSelf then (r, 1%nat) else
  let lim := Z.max 0 (end_ - Z.of_nat UTFMax) in
  let start := lastRuneStart s (start - 1) (Z.to_nat (start - 1 - lim + 1)) in
  let start := Z.max 0 start in
  let '(r, size) :=
    DecodeRuneInString (slice (Z.to_nat start) (Z.to_nat end_) s) in
  if negb (start + Z.of_nat size =? end_) then (RuneError, 1%nat)
  else (r, size).

(** [utf8.EncodeRune], returning the bytes written.  No command calls it;
    it states which byte strings are the encodings of white space. *)
Definition EncodeRune (r : Z) : string :=
  if (0 <=? r) && (r <=? 0x7F) then
    String (byte_of r) EmptyString
  else if (0 <=? r) && (r <=? 0x7FF) then
    String (byte_of (Z.lor 0xC0 (Z.shiftr r 6)))
      (String (byte_of (Z.lor 0x80 (Z.land r maskx))) EmptyString)
  else if (r <? 0) || (MaxRune <? r)
          || ((surrogateMin <=? r) && (r <=? surrogateMax)) then
    String (byte_of 0xEF) (String (byte_of 0xBF)
      (String (byte_of 0xBD) EmptyString))
  else if r <=? 0xFFFF then
    String (byte_of (Z.lor 0xE0 (Z.shiftr r 12)))
      (String (byte_of (Z.lor 0x80 (Z.land (Z.shiftr r 6) maskx)))
        (String (byte_of (Z.lor 0x80 (Z.land r maskx))) EmptyString))
  else
    String (byte_of (Z.lor 0xF0 (Z.shiftr r 18)))
      (String (byte_of (Z.lor 0x80 (Z.land (Z.shiftr r 12) maskx)))
        (String (byte_of (Z.lor 0x80 (Z.land (Z.shiftr r 6) maskx)))
          (String (byte_of (Z.lor 0x80 (Z.land r maskx))) EmptyString))).

End utf8.

(** ** Package unicode *)

Module unicode.

Definition MaxLatin1 : Z := 0xFF.

(** A [Range16]: lowest and highest code point and the stride. *)
Record Range16 := { Lo : Z; Hi : Z; Stride : Z }.

(** The [White_Space] range table; its first [LatinOffset] rows lie in
    Latin-1. *)
Definition White_Space_R16 : list Range16 :=
  [ {| Lo := 0x0009; Hi := 0x000d; Stride := 1 |};
    {| Lo := 0x0020; Hi := 0x0020; Stride := 1 |};
    {| Lo := 0x0085; Hi := 0x0085; Stride := 1 |};
    {| Lo := 0x00a0; Hi := 0x00a0; Stride := 1 |};
    {| Lo := 0x1680; Hi := 0x1680; Stride := 1 |};
    {| Lo := 0x2000; Hi := 0x200a; Stride := 1 |};
    {| Lo := 0x2028; Hi := 0x2029; Stride := 1 |};
    {| Lo := 0x202f; Hi := 0x202f; Stride := 1 |};
    {| Lo := 0x205f; Hi := 0x205f; Stride := 1 |};
    {| Lo := 0x3000; Hi := 0x3000; Stride := 1 |} ].

Definition White_Space_LatinOffset : nat := 4.

(** [is16]: is [r] in one of the ranges. *)
Definition is16 (ranges : list Range16) (r : Z) : bool :=
  existsb (fun rg =>
    (Lo rg <=? r) && (r <=? Hi rg)
    && ((Stride rg =? 1) || ((r - Lo rg) mod Stride rg =? 0))) ranges.

(** [isExcludingLatin] on a table without 32-bit ranges. *)
Definition isExcludingLatin (r16 : list Range16) (off : nat) (r : Z) : bool :=
  if (off <? List.length r16)%nat
     && (r <=? Hi (List.last r16 {| Lo := 0; Hi := 0; Stride := 1 |}))
  then is16 (List.skipn off r16) r
  else false.

(** [unicode.IsSpace] *)
Definition IsSpace (r : Z) : bool :=
  if (0 <=? r) && (r <=? MaxLatin1) then
    (r =? 0x09) || (r =? 0x0A) || (r =? 0x0B) || (r =? 0x0C) || (r =? 0x0D)
    || (r =? 0x20) || (r =? 0x85) || (r =? 0xA0)
  else if r <? 0 then false
  else isExcludingLatin White_Space_R16 White_Space_LatinOffset r.

End unicode.

(** ** Package strings *)

Module strings.

(** [asciiSpace]: 1 at the six ASCII white space bytes, 0 elsewhere. *)
Definition asciiSpace (c : Z) : Z :=
  if (c =? 0x09) || (c =? 0x0A) || (c =? 0x0B) || (c =? 0x0C)
     || (c =? 0x0D) || (c =? 0x20)
  then 1 else 0.

(** [for i, r := range s { if f(r) == truth { return i } }; return -1].
    A range loop over a string decodes one rune at [i] and moves on by its
    width; here the bytes of the rune after its first are passed over one
    by one ([skip] counts those still to pass), so that the recursion is
    on the string itself. *)
Fixpoint indexFunc_range (s : string) (f : Z -> bool) (truth : bool)
    (i : Z) (skip : nat) : Z :=
  match s with
  | EmptyString => -1
  | String _ rest =>
      match skip with
      | S k => indexFunc_range rest f truth (i + 1) k
      | O =>
          let '(r, size) := utf8.DecodeRuneInString s in
          if Bool.eqb (f r) truth then i
          else indexFunc_range rest f truth (i + 1) (size - 1)
      end
  end.

Definition indexFunc (s : string) (f : Z -> bool) (truth : bool) : Z :=
  indexFunc_range s f truth 0 0.

(** [for i := len(s); i > 0; { r, size := DecodeLastRuneInString(s[0:i]);
    i -= size; if f(r) == truth { return i } }; return -1].  Every turn
    lowers [i] by at least one, so [len(s)] turns of fuel are enough. *)
Fixpoint lastIndexFunc_loop (s : string) (f : Z -> bool) (truth : bool)
    (i : nat) (fuel : nat) : Z :=
  match fuel with
  | O => -1
  | S fuel' =>
      if (i =? 0)%nat then -1 else
      let '(r, size) := utf8.DecodeLastRuneInString (slice_to i s) in
      let i' := (i - size)%nat in
      if Bool.eqb (f r) truth then Z.of_nat i'
      else lastIndexFunc_loop s f truth i' fuel'
  end.

Definition lastIndexFunc (s : string) (f : Z -> bool) (truth : bool) : Z :=
  lastIndexFunc_loop s f truth (String.length s) (String.length s).

Definition TrimLeftFunc (s : string) (f : Z -> bool) : string :=
  let i := indexFunc s f false in
  if i =? -1 then EmptyString
  else slice_from (Z.to_nat i) s.

Definition TrimRightFunc (s : string) (f : Z -> bool) : string :=
  let i := lastIndexFunc s f false in
  let i :=
    if (0 <=? i) && (utf8.RuneSelf <=? byte_at s (Z.to_nat i)) then
      let '(_, wid) := utf8.DecodeRuneInString (slice_from (Z.to_nat i) s) in
      i + Z.of_nat wid
    else i + 1 in
  slice_to (Z.to_nat i) s.

Definition TrimFunc (s : string) (f : Z -> bool) : string :=
  TrimRightFunc (TrimLeftFunc s f) f.

(** The second loop of [TrimSpace], on [t = s[start:]] with [stop] counted
    from the head of [t]:
    [for ; stop > start; stop-- { c := s[stop-1]; ... }]. *)
Fixpoint TrimSpace_stop (t : string) (stop : nat) : string :=
  match stop with
  | O => slice_to 0 t
  | S k =>
      let c := byte_at t k in
      if utf8.RuneSelf <=? c then TrimFunc (slice_to stop t) unicode.IsSpace
      else if asciiSpace c =? 0 then slice_to stop t
      else TrimSpace_stop t k
  end.

(** The first loop of [TrimSpace], on the suffix [s[start:]]:
    [for ; start < len(s); start++ { c := s[start]; ... }], followed by
    the second loop. *)
Fixpoint TrimSpace_start (t : string) : string :=
  match t with
  | EmptyString => TrimSpace_stop t (String.length t)
  | String c0 rest =>
      let c := byte_val c0 in
      if utf8.RuneSelf <=? c then TrimFunc t unicode.IsSpace
      else if asciiSpace c =? 0 then TrimSpace_stop t (String.length t)
      else TrimSpace_start rest
  end.

(** [strings.TrimSpace]: [s] without its leading and trailing white
    space, as defined by Unicode. *)
Definition TrimSpace (s : string) : string := TrimSpace_start s.

End strings.

(** ** Errors *)

(** Modelled from the spec: the logical error kinds of section 7 that a
    store-backed query can fail with.  The package [utils], which raises
    them, is not part of the source at hand. *)
Inductive ErrorKind : Type :=
| InvalidIdentifier
| InvalidHeight
| ClientNotFound
| ConsensusStateNotFound
| RootNotFound
| HeightNotAvailable
| ConsensusStateExpired
| ProofGenerationFailed.

(** Go's [error] values, by the implementations that occur:
    [*errors.errorString] (from [errors.New] and [fmt.Errorf]),
    [*strconv.NumError], and the errors of the store-backed queries. *)
Inductive error : Type :=
| errorString (s : string)
| NumError (Func Num : string) (Err : error)
| QueryError (kind : ErrorKind) (detail : string).

(** The method [Error()]. *)
Fixpoint Error (e : error) : string :=
  match e with
  | errorString s => s
  | NumError fn num err =>
      "strconv." +:+ fn +:+ ": parsing " +:+ num +:+ ": " +:+ Error err
  | QueryError _ detail => detail
  end.

Module errors.
Definition New (text : string) : error := errorString text.
End errors.

Module fmt.

(** The operands that the formats below receive. *)
Inductive operand : Type :=
| str (s : string)
| int (z : Z).

Definition verb_v (x : operand) : string :=
  match x with
  | str s => s
  | int z => pretty z
  end.

Definition verb_d (x : operand) : string :=
  match x with
  | str s => "%!d(string=" +:+ s +:+ ")"
  | int z => pretty z
  end.

(** [fmt.Sprintf] for formats whose verbs are [%v] and [%d], on strings
    and integers: [%v] prints a string as it is and an integer in base
    10; an operand that is missing prints as [%!v(MISSING)]. *)
Fixpoint Sprintf (format : string) (a : list operand) : string :=
  match format with
  | String "%" (String "v" rest) =>
      match a with
      | x :: a' => verb_v x +:+ Sprintf rest a'
      | [] => "%!v(MISSING)" +:+ Sprintf rest []
      end
  | String "%" (String "d" rest) =>
      match a with
      | x :: a' => verb_d x +:+ Sprintf rest a'
      | [] => "%!d(MISSING)" +:+ Sprintf rest []
      end
  | String c rest => String c (Sprintf rest a)
  | EmptyString => EmptyString
  end.

Definition Errorf (format : string) (a : list operand) : error :=
  errorString (Sprintf format a).

End fmt.

(** ** Package strconv *)

Module strconv.

Definition ErrRange : error := errors.New "value out of range".
Definition ErrSyntax : error := errors.New "invalid syntax".

Definition syntaxError (fn str : string) : error := NumError fn str ErrSyntax.
Definition rangeError (fn str : string) : error := NumError fn str ErrRange.

Definition maxUint64 : Z := 2 ^ 64 - 1.

(** Arithmetic of [uint64] wraps around. *)
Definition wrap64 (z : Z) : Z := z mod 2 ^ 64.

Definition lower (c : Z) : Z := Z.lor c 0x20.

Definition fnParseUint : string := "ParseUint".

(** The two arguments the commands pass after the string. *)
Definition base : Z := 10.
Definition bitSize : Z := 64.

Definition cutoff : Z := maxUint64 / 10 + 1.
Definition maxVal : Z := wrap64 (wrap64 (Z.shiftl 1 bitSize) - 1).

(** The loop [for _, c := range []byte(s)] of [ParseUint], from the
    accumulator [n]; [s0] is the whole string, for the error values. *)
Fixpoint ParseUint_loop (s0 : string) (s : string) (n : Z) : Z * option error :=
  match s with
  | EmptyString => (n, None)
  | String c0 rest =>
      let c := byte_val c0 in
      let d :=
        if (0x30 <=? c) && (c <=? 0x39) then Some (c - 0x30)
        else if (0x61 <=? lower c) && (lower c <=? 0x7A)
             then Some (lower c - 0x61 + 10)
        else None in
      match d with
      | None => (0, Some (syntaxError fnParseUint s0))
      | Some d =>
          if base <=? d then (0, Some (syntaxError fnParseUint s0))
          else if cutoff <=? n then (maxVal, Some (rangeError fnParseUint s0))
          else
            let n := wrap64 (n * base) in
            let n1 := wrap64 (n + d) in
            if (n1 <? n) || (maxVal <? n1)
            then (maxVal, Some (rangeError fnParseUint s0))
            else ParseUint_loop s0 rest n1
      end
  end.

(** [strconv.ParseUint(s, 10, 64)]: the value and the error, of which one
    is meaningful.  Base 10 and bit size 64 are the arguments of the one
    call in the commands; with them the branches of [ParseUint] for base 0
    (prefixes and underscores) and for a bad base or bit size are not
    taken. *)
Definition ParseUint (s : string) : Z * option error :=
  if String.eqb s "" then (0, Some (syntaxError fnParseUint s))
  else ParseUint_loop s s 0.

End strconv.

(** ** The collaborators of the commands

    The commands are glue: they validate their arguments and hand the work
    to packages whose code is not part of the file at hand.  The types that
    those packages declare, and the name of the proof flag, are fields of
    [ClientTypes]; what the packages do is the field of [Collaborators]. *)

Class ClientTypes : Type := {
  (** [*codec.Codec] *)
  Codec : Type;
  (** [context.CLIContext] *)
  CLIContext : Type;
  (** the first results of [utils.QueryClientState],
      [utils.QueryConsensusStateProof] and [utils.QueryCommitmentRoot] *)
  StateResponse : Type;
  ConsensusStateResponse : Type;
  RootResponse : Type;
  (** the results of [utils.QueryTendermintHeader]: the header, and a
      second result that the command drops *)
  Header : Type;
  HeaderAux : Type;
  (** the results of [utils.QueryNodeConsensusState], likewise *)
  NodeConsensusState : Type;
  NodeConsensusStateAux : Type;
  (** [commitment.Prefix] *)
  Prefix : Type;
  (** the constant [flags.FlagProve] *)
  FlagProve : string;
}.

(** The values that the commands pass to [PrintOutput], whose parameter has
    the type [interface{}]. *)
Inductive Printable `{ClientTypes} : Type :=
| PStateResponse (res : StateResponse)
| PConsensusStateResponse (res : ConsensusStateResponse)
| PRootResponse (res : RootResponse)
| PHeader (header : Header)
| PNodeConsensusState (state : NodeConsensusState)
| PPrefix (path : Prefix).

Class Collaborators `{ClientTypes} : Type := {
  (** [context.NewCLIContext()] and [cliCtx.WithCodec(cdc)] *)
  NewCLIContext : CLIContext;
  WithCodec : CLIContext -> Codec -> CLIContext;
  (** [cliCtx.PrintOutput(toPrint)] *)
  PrintOutput : CLIContext -> Printable -> option error;
  (** package [utils]; a Go function with the results [(T, error)] returns
      both, and the caller looks at the error first *)
  QueryClientState : CLIContext -> string -> bool -> StateResponse * option error;
  QueryConsensusStateProof :
    CLIContext -> string -> bool -> ConsensusStateResponse * option error;
  QueryCommitmentRoot :
    CLIContext -> string -> Z -> bool -> RootResponse * option error;
  QueryTendermintHeader : CLIContext -> Header * HeaderAux * option error;
  QueryNodeConsensusState :
    CLIContext -> NodeConsensusState * NodeConsensusStateAux * option error;
  (** [commitment.NewPrefix(prefix)] *)
  NewPrefix : string -> Prefix;
}.

(** ** Running a command body

    A body is a sequence of statements, each of which goes on to the next,
    returns from the body with an [error] (which may be nil, [None]), or
    panics.  The calls that leave the process (the queries of [utils] and
    [PrintOutput]) are recorded, in order, with their arguments. *)

Inductive Event `{ClientTypes} : Type :=
| CallQueryClientState (cliCtx : CLIContext) (clientID : string) (prove : bool)
| CallQueryConsensusStateProof (cliCtx : CLIContext) (clientID : string)
    (prove : bool)
| CallQueryCommitmentRoot (cliCtx : CLIContext) (clientID : string)
    (height : Z) (prove : bool)
| CallQueryTendermintHeader (cliCtx : CLIContext)
| CallQueryNodeConsensusState (cliCtx : CLIContext)
| CallPrintOutput (cliCtx : CLIContext) (toPrint : Printable).

Inductive Step (A : Type) : Type :=
| Continue (a : A)
| Return (err : option error)
| Panic (msg : string).
Arguments Continue {A} a.
Arguments Return {A} err.
Arguments Panic {A} msg.

Definition Exec `{ClientTypes} (A : Type) : Type :=
  list Event -> Step A * list Event.

#[export] Instance Exec_ret `{ClientTypes} : MRet Exec :=
  fun A a tr => (Continue a, tr).

#[export] Instance Exec_bind `{ClientTypes} : MBind Exec :=
  fun A B k m tr =>
    match m tr with
    | (Continue a, tr') => k a tr'
    | (Return err, tr') => (Return err, tr')
    | (Panic msg, tr') => (Panic msg, tr')
    end.

(** [return err] *)
Definition return_ `{ClientTypes} {A : Type} (err : option error) : Exec A :=
  fun tr => (Return err, tr).

(** [err != nil] *)
Definition is_Some_bool (err : option error) : bool :=
  match err with
  | Some _ => true
  | None => false
  end.

(** [if err != nil { return err }] *)
Definition return_if_err `{ClientTypes} (err : option error) : Exec unit :=
  match err with
  | Some e => return_ (Some e)
  | None => mret tt
  end.

(** [args[i]], which panics out of range. *)
Definition index `{ClientTypes} (args : list string) (i : nat) : Exec string :=
  match args !! i with
  | Some a => mret a
  | None => fun tr => (Panic "runtime error: index out of range", tr)
  end.

(** A call that leaves the process: the event is recorded and the answer of
    the collaborator handed back. *)
Definition call `{ClientTypes} {A : Type} (ev : Event) (answer : A) : Exec A :=
  fun tr => (Continue answer, tr ++ [ev]).

(** How a command ended. *)
Inductive Outcome : Type :=
| Returned (err : option error)
| Panicked (msg : string).

Definition run `{ClientTypes} (body : Exec Empty_set) : Outcome * list Event :=
  match body [] with
  | (Continue a, _) => match a with end
  | (Return err, tr) => (Returned err, tr)
  | (Panic msg, tr) => (Panicked msg, tr)
  end.

(** ** Package viper

    The commands read their flags through viper, to which the root command
    of the SDK binds the flag set of the command that runs: a key has the
    value given on the command line, else the default the flag was declared
    with.  Configuration files and environment variables are not modelled.
    A key that is not set reads as [false]. *)

Module viper.

Definition GetBool (v : gmap string bool) (key : string) : bool :=
  default false (v !! key).

End viper.

(** ** Package cobra *)

Module cobra.

(** The fields of [cobra.Command] that bear on a run; the help texts
    ([Short], [Long], [Example]) are left out. *)
Record Command `{ClientTypes} : Type := {
  Use : string;
  (** the validator of the positional arguments, if one is set *)
  Args : option (list string -> option error);
  (** the body; its first argument is the state of viper *)
  RunE : gmap string bool -> list string -> Exec Empty_set;
  (** [cmd.Flags()]: the boolean flags declared, with their defaults *)
  Flags : gmap string bool;
}.

Definition ExactArgs (n : nat) (args : list string) : option error :=
  if negb (List.length args =? n)%nat then
    Some (fmt.Errorf "accepts %d arg(s), received %d"
            [fmt.int (Z.of_nat n); fmt.int (Z.of_nat (List.length args))])
  else None.

(** Running a command on positional arguments and the flags given on the
    command line (which are among those the command declares): the flags
    are bound, the arguments validated, and the body run. *)
Definition Execute `{ClientTypes} (cmd : Command) (args : list string)
    (given : gmap string bool) : Outcome * list Event :=
  let v := given ∪ Flags cmd in
  match Args cmd with
  | Some validate =>
      match validate args with
      | Some err => (Returned (Some err), [])
      | None => run (RunE cmd v args)
      end
  | None => run (RunE cmd v args)
  end.

End cobra.

(** ** Package cli: the commands of query.go *)

Module cli.
Section commands.
Context `{Collaborators}.

(** [GetCmdQueryClientState]: the command that queries the state of a
    client with a given id. *)
Definition GetCmdQueryClientState (queryRoute : string) (cdc : Codec)
    : cobra.Command :=
  {| cobra.Use := "state [client-id]";
     cobra.Args := Some (cobra.ExactArgs 1);
     cobra.RunE := fun v args =>
       let cliCtx := WithCodec NewCLIContext cdc in
       clientID ← index args 0;
       if String.eqb (strings.TrimSpace clientID) "" then
         return_ (Some (errors.New "client ID can't be blank"))
       else
       let prove := viper.GetBool v FlagProve in
       '(clientStateRes, err) ←
         call (CallQueryClientState cliCtx clientID prove)
              (QueryClientState cliCtx clientID prove);
       _ ← return_if_err err;
       err ← call (CallPrintOutput cliCtx (PStateResponse clientStateRes))
                  (PrintOutput cliCtx (PStateResponse clientStateRes));
       return_ err;
     cobra.Flags := <[FlagProve := true]> ∅ |}.

(** [GetCmdQueryConsensusState]: the command that queries the consensus
    state of the chain. *)
Definition GetCmdQueryConsensusState (queryRoute : string) (cdc : Codec)
    : cobra.Command :=
  {| cobra.Use := "consensus-state [client-id]";
     cobra.Args := Some (cobra.ExactArgs 1);
     cobra.RunE := fun v args =>
       let cliCtx := WithCodec NewCLIContext cdc in
       clientID ← index args 0;
       if String.eqb (strings.TrimSpace clientID) "" then
         return_ (Some (errors.New "client ID can't be blank"))
       else
       let prove := viper.GetBool v FlagProve in
       '(csRes, err) ←
         call (CallQueryConsensusStateProof cliCtx clientID prove)
              (QueryConsensusStateProof cliCtx clientID prove);
       _ ← return_if_err err;
       err ← call (CallPrintOutput cliCtx (PConsensusStateResponse csRes))
                  (PrintOutput cliCtx (PConsensusStateResponse csRes));
       return_ err;
     cobra.Flags := <[FlagProve := true]> ∅ |}.

(** [GetCmdQueryRoot]: the command that queries a verified commitment
    root. *)
Definition GetCmdQueryRoot (queryRoute : string) (cdc : Codec)
    : cobra.Command :=
  {| cobra.Use := "root [client-id] [height]";
     cobra.Args := Some (cobra.ExactArgs 2);
     cobra.RunE := fun v args =>
       let cliCtx := WithCodec NewCLIContext cdc in
       clientID ← index args 0;
       if String.eqb (strings.TrimSpace clientID) "" then
         return_ (Some (errors.New "client ID can't be blank"))
       else
       height_tok ← index args 1;
       let '(height, err) := strconv.ParseUint height_tok in
       if is_Some_bool err then
         return_ (Some (fmt.Errorf "expected integer height, got: %v"
                          [fmt.str height_tok]))
       else
       let prove := viper.GetBool v FlagProve in
       '(rootRes, err) ←
         call (CallQueryCommitmentRoot cliCtx clientID height prove)
              (QueryCommitmentRoot cliCtx clientID height prove);
       _ ← return_if_err err;
       err ← call (CallPrintOutput cliCtx (PRootResponse rootRes))
                  (PrintOutput cliCtx (PRootResponse rootRes));
       return_ err;
     cobra.Flags := <[FlagProve := true]> ∅ |}.

(** [GetCmdQueryHeader]: the command that queries the latest header on
    the chain. *)
Definition GetCmdQueryHeader (cdc : Codec) : cobra.Command :=
  {| cobra.Use := "header";
     cobra.Args := None;
     cobra.RunE := fun v args =>
       let cliCtx := WithCodec NewCLIContext cdc in
       '(header, _, err) ←
         call (CallQueryTendermintHeader cliCtx)
              (QueryTendermintHeader cliCtx);
       _ ← return_if_err err;
       err ← call (CallPrintOutput cliCtx (PHeader header))
                  (PrintOutput cliCtx (PHeader header));
       return_ err;
     cobra.Flags := ∅ |}.

(** [GetCmdNodeConsensusState]: the command that queries the latest
    consensus state of a node; the result is fed to client creation. *)
Definition GetCmdNodeConsensusState (queryRoute : string) (cdc : Codec)
    : cobra.Command :=
  {| cobra.Use := "node-state";
     cobra.Args := Some (cobra.ExactArgs 0);
     cobra.RunE := fun v args =>
       let cliCtx := WithCodec NewCLIContext cdc in
       '(state, _, err) ←
         call (CallQueryNodeConsensusState cliCtx)
              (QueryNodeConsensusState cliCtx);
       _ ← return_if_err err;
       err ← call (CallPrintOutput cliCtx (PNodeConsensusState state))
                  (PrintOutput cliCtx (PNodeConsensusState state));
       return_ err;
     cobra.Flags := ∅ |}.

(** [GetCmdQueryPath]: the command that queries the commitment path. *)
Definition GetCmdQueryPath (storeName : string) (cdc : Codec)
    : cobra.Command :=
  {| cobra.Use := "path";
     cobra.Args := None;
     cobra.RunE := fun v args =>
       let ctx := WithCodec NewCLIContext cdc in
       let path := NewPrefix "ibc" in
       err ← call (CallPrintOutput ctx (PPrefix path))
                  (PrintOutput ctx (PPrefix path));
       return_ err;
     cobra.Flags := ∅ |}.

End commands.
End cli.

(** ** The query operations

    The operations of the external interface, each as the run of its
    command: the identifier and the height token are the positional
    arguments, and [prove] is the flag as the caller gives it ([None] when
    the caller leaves it out). *)

Definition flag (key : string) (value : option bool) : gmap string bool :=
  match value with
  | Some b => {[ key := b ]}
  | None => ∅
  end.

Section operations.
Context `{Collaborators}.
Variables (queryRoute storeName : string) (cdc : Codec).

Definition GetClientState (clientID : string) (prove : option bool)
    : Outcome * list Event :=
  cobra.Execute (cli.GetCmdQueryClientState queryRoute cdc)
    [clientID] (flag FlagProve prove).

Definition GetConsensusState (clientID : string) (prove : option bool)
    : Outcome * list Event :=
  cobra.Execute (cli.GetCmdQueryConsensusState queryRoute cdc)
    [clientID] (flag FlagProve prove).

Definition GetCommitmentRoot (clientID height : string) (prove : option bool)
    : Outcome * list Event :=
  cobra.Execute (cli.GetCmdQueryRoot queryRoute cdc)
    [clientID; height] (flag FlagProve prove).

Definition GetLatestHeader : Outcome * list Event :=
  cobra.Execute (cli.GetCmdQueryHeader cdc) [] ∅.

Definition GetNodeConsensusState : Outcome * list Event :=
  cobra.Execute (cli.GetCmdNodeConsensusState queryRoute cdc) [] ∅.

Definition GetCommitmentPrefix : Outcome * list Event :=
  cobra.Execute (cli.GetCmdQueryPath storeName cdc) [] ∅.

End operations.


(** The calls of a run that went to the queries of [utils]. *)
Definition is_query `{ClientTypes} (ev : Event) : bool :=
  match ev with
  | CallPrintOutput _ _ => false
  | _ => true
  end.

Definition queries `{ClientTypes} (tr : list Event) : list Event :=
  List.filter is_query tr.

(** ** Notions that the statements use *)

(** The concatenation of the UTF-8 encodings of runes. *)
Definition EncodeRunes (rs : list Z) : string :=
  fold_right (fun r acc => utf8.EncodeRune r +:+ acc) EmptyString rs.

(** A string is blank when it is the UTF-8 encoding of a sequence of white
    space runes; the empty string is the encoding of no rune. *)
Definition blank (s : string) : Prop :=
  exists rs : list Z,
    Forall (fun r => unicode.IsSpace r = true) rs /\ s = EncodeRunes rs.

Definition is_digit (c : ascii) : bool :=
  (0x30 <=? byte_val c) && (byte_val c <=? 0x39).

Fixpoint all_digits (s : string) : bool :=
  match s with
  | EmptyString => true
  | String c rest => is_digit c && all_digits rest
  end.

(** The number that a string of decimal digits denotes, after the digits
    already read as [acc]; it is not bounded. *)
Fixpoint decimal_value_from (acc : Z) (s : string) : Z :=
  match s with
  | EmptyString => acc
  | String c rest => decimal_value_from (10 * acc + (byte_val c - 0x30)) rest
  end.

Definition decimal_value (s : string) : Z := decimal_value_from 0 s.

(** A base-10 numeral: one or more decimal digits, and nothing else. *)
Definition decimal_numeral (s : string) : bool :=
  negb (String.eqb s "") && all_digits s.

(** A base-10 numeral of an unsigned integer of 64 bits. *)
Definition uint64_numeral (s : string) : bool :=
  decimal_numeral s && (decimal_value s <? 2 ^ 64).

(** [sub] occurs in [s]. *)
Definition occurs_in (sub s : string) : Prop :=
  exists pre post : string, s = pre +:+ sub +:+ post.

(** The white space runes, one by one: the rows of [unicode.White_Space]
    written out. *)
Definition space_runes : list Z :=
  [0x09; 0x0A; 0x0B; 0x0C; 0x0D; 0x20; 0x85; 0xA0; 0x1680;
   0x2000; 0x2001; 0x2002; 0x2003; 0x2004; 0x2005; 0x2006; 0x2007; 0x2008;
   0x2009; 0x200A; 0x2028; 0x2029; 0x202F; 0x205F; 0x3000].

(** A run of a store-backed query command that yields all of a result or
    none of it: the command returned an error before it asked anything; or
    it asked at the key [k], the query failed, and the command returned the
    error of the query and handed nothing to [PrintOutput]; or the query
    succeeded and the command handed its whole result to [PrintOutput] and
    returned what [PrintOutput] returned. *)
Definition whole_or_nothing `{Collaborators} {K R : Type}
    (asked : K -> Event) (lookup : K -> R * option error)
    (wrap : R -> Printable) (r : Outcome * list Event) : Prop :=
  (exists e, r = (Returned (Some e), []))
  \/ (exists k res e,
        lookup k = (res, Some e)
        /\ r = (Returned (Some e), [asked k]))
  \/ (exists k res cliCtx,
        lookup k = (res, None)
        /\ r = (Returned (PrintOutput cliCtx (wrap res)),
                [asked k; CallPrintOutput cliCtx (wrap res)])).

(** ** The store behind the queries

    The package [utils], the store it reads and the verifier of its proofs
    are not part of the source at hand; this module follows sections 3 and
    4 of the specification. *)

Module store.

(** Modelled from the spec: the keys of the three registries (sections
    4.2 to 4.4), which the missing package [types] builds: a client
    identifier, and for a commitment root also a height. *)
Inductive StoreKey : Type :=
| KeyClientState (clientID : string)
| KeyConsensusState (clientID : string)
| KeyRoot (clientID : string) (height : Z).

#[export] Instance StoreKey_eq_dec : EqDecision StoreKey.
Proof. solve_decision. Defined.

(** Modelled from the spec: the CommitmentPrefix of section 3, the
    literal store name. *)
Definition CommitmentPrefix : string := "ibc".

(** Modelled from the spec: the CommitmentPath of section 3, the prefix
    followed by the key. *)
Record CommitmentPath : Type := {
  path_prefix : string;
  path_key : StoreKey;
}.

#[export] Instance CommitmentPath_eq_dec : EqDecision CommitmentPath.
Proof. solve_decision. Defined.

Definition clientStatePath (clientID : string) : CommitmentPath :=
  {| path_prefix := CommitmentPrefix; path_key := KeyClientState clientID |}.

Definition consensusStatePath (clientID : string) : CommitmentPath :=
  {| path_prefix := CommitmentPrefix;
     path_key := KeyConsensusState clientID |}.

Definition rootPath (clientID : string) (height : Z) : CommitmentPath :=
  {| path_prefix := CommitmentPrefix; path_key := KeyRoot clientID height |}.

(** Modelled from the spec: the CommitmentProof of sections 3 and 9, an
    ordered sequence of tagged steps from the leaf to the root; a step
    hashes the digest reached so far with the digest of a sibling, which
    stands on its right or on its left. *)
Inductive ProofStep : Type :=
| HashWithSiblingOnRight (sibling : string)
| HashWithSiblingOnLeft (sibling : string).

Definition CommitmentProof : Type := list ProofStep.

(** Modelled from the spec: the QueryResult of section 3. *)
Record QueryResult : Type := {
  value : string;
  height : Z;
  proof : option CommitmentProof;
}.

Definition noResult : QueryResult :=
  {| value := EmptyString; height := 0; proof := None |}.

(** The hash function of the commitment scheme, which the specification
    leaves to the implementer (section 9). *)
Record HashScheme : Type := {
  hash_leaf : CommitmentPath -> string -> string;
  hash_node : string -> string -> string;
  hash_empty : string;
}.

(** Modelled from the spec: one snapshot of the CommitmentStore of
    sections 2 and 4.1, a hash tree over the (path, value) pairs of the
    snapshot, whose root digest is the commitment root. *)
Inductive Tree : Type :=
| Empty
| Leaf (path : CommitmentPath) (v : string)
| Node (l r : Tree).

(** Modelled from the spec: the versioned store of section 4.1, the
    snapshots that are kept, by height, and the latest committed
    height. *)
Record Store : Type := {
  latest : Z;
  snapshots : gmap Z Tree;
}.

(** The value under [path] in a snapshot. *)
Fixpoint tree_get (path : CommitmentPath) (t : Tree) : option string :=
  match t with
  | Empty => None
  | Leaf path' v => if decide (path' = path) then Some v else None
  | Node l r =>
      match tree_get path l with
      | Some v => Some v
      | None => tree_get path r
      end
  end.

(** Modelled from the spec: [get(path, height)] of section 4.1; a pruned
    or future height fails with [HeightNotAvailable]. *)
Definition get (st : Store) (path : CommitmentPath) (h : Z)
    : option string * option error :=
  if latest st <? h then
    (None, Some (QueryError HeightNotAvailable "height not available"))
  else
    match snapshots st !! h with
    | None =>
        (None, Some (QueryError HeightNotAvailable "height not available"))
    | Some t => (tree_get path t, None)
    end.

(** A root is recorded for [(clientID, h)] when the latest snapshot holds
    a value under its path. *)
Definition root_recorded (st : Store) (clientID : string) (h : Z) : Prop :=
  exists t, snapshots st !! latest st = Some t
            /\ is_Some (tree_get (rootPath clientID h) t).

Section scheme.
Variable hs : HashScheme.

Fixpoint root_hash (t : Tree) : string :=
  match t with
  | Empty => hash_empty hs
  | Leaf path v => hash_leaf hs path v
  | Node l r => hash_node hs (root_hash l) (root_hash r)
  end.

(** The value under [path] in a snapshot and the steps that lead from
    its leaf to the root. *)
Fixpoint tree_getWithProof (path : CommitmentPath) (t : Tree)
    : option (string * CommitmentProof) :=
  match t with
  | Empty => None
  | Leaf path' v => if decide (path' = path) then Some (v, []) else None
  | Node l r =>
      match tree_getWithProof path l with
      | Some (v, steps) =>
          Some (v, steps ++ [HashWithSiblingOnRight (root_hash r)])
      | None =>
          match tree_getWithProof path r with
          | Some (v, steps) =>
              Some (v, steps ++ [HashWithSiblingOnLeft (root_hash l)])
          | None => None
          end
      end
  end.

(** Modelled from the spec: [getWithProof(path, height)] of section
    4.1, which fails as [get] does. *)
Definition getWithProof (st : Store) (path : CommitmentPath) (h : Z)
    : option (string * CommitmentProof) * option error :=
  if latest st <? h then
    (None, Some (QueryError HeightNotAvailable "height not available"))
  else
    match snapshots st !! h with
    | None =>
        (None, Some (QueryError HeightNotAvailable "height not available"))
    | Some t => (tree_getWithProof path t, None)
    end.

(** The trusted root at a height. *)
Definition rootAtHeight (st : Store) (h : Z) : option string :=
  root_hash <$> snapshots st !! h.

Definition apply_step (digest : string) (step : ProofStep) : string :=
  match step with
  | HashWithSiblingOnRight sibling => hash_node hs digest sibling
  | HashWithSiblingOnLeft sibling => hash_node hs sibling digest
  end.

(** Modelled from the spec: [verify(root, path, value, proof)] of
    section 4.7 recomputes a root digest by folding the proof over
    (path, value) and compares it to [root] byte for byte. *)
Definition verify (root : string) (path : CommitmentPath) (v : string)
    (steps : CommitmentProof) : bool :=
  String.eqb (fold_left apply_step steps (hash_leaf hs path v)) root.

(** Modelled from the spec: the lookup that sections 4.2 to 4.4 share:
    a blank identifier is rejected, the path is looked up at the latest
    height, an absent entry fails with the error kind of the registry,
    and the proof is attached when [prove] is set; the height used is
    reported in either case. *)
Definition query (st : Store) (clientID : string) (path : CommitmentPath)
    (notFound : ErrorKind) (prove : bool) : QueryResult * option error :=
  if String.eqb (strings.TrimSpace clientID) "" then
    (noResult, Some (QueryError InvalidIdentifier "blank identifier"))
  else if prove then
    match getWithProof st path (latest st) with
    | (_, Some err) => (noResult, Some err)
    | (None, None) => (noResult, Some (QueryError notFound "not found"))
    | (Some (v, steps), None) =>
        ({| value := v; height := latest st; proof := Some steps |}, None)
    end
  else
    match get st path (latest st) with
    | (_, Some err) => (noResult, Some err)
    | (None, None) => (noResult, Some (QueryError notFound "not found"))
    | (Some v, None) =>
        ({| value := v; height := latest st; proof := None |}, None)
    end.

(** Modelled from the spec: [queryClientState] of section 4.2, the
    missing [utils.QueryClientState]. *)
Definition queryClientState (st : Store) (clientID : string)
    (prove : bool) : QueryResult * option error :=
  query st clientID (clientStatePath clientID) ClientNotFound prove.

(** Modelled from the spec: [queryConsensusState] of section 4.3, the
    missing [utils.QueryConsensusStateProof]. *)
Definition queryConsensusState (st : Store) (clientID : string)
    (prove : bool) : QueryResult * option error :=
  query st clientID (consensusStatePath clientID)
    ConsensusStateNotFound prove.

(** Modelled from the spec: [queryCommitmentRoot] of section 4.4, the
    missing [utils.QueryCommitmentRoot]: the root recorded for exactly
    [(clientID, h)]. *)
Definition queryCommitmentRoot (st : Store) (clientID : string) (h : Z)
    (prove : bool) : QueryResult * option error :=
  query st clientID (rootPath clientID h) RootNotFound prove.

End scheme.

(** The types of the collaborators, for a node that serves the queries
    from such a store.  The header and node-state queries have nothing to
    do with the store and answer with the unit. *)
Definition types : ClientTypes :=
  {| Codec := unit;
     CLIContext := unit;
     StateResponse := QueryResult;
     ConsensusStateResponse := QueryResult;
     RootResponse := QueryResult;
     Header := unit;
     HeaderAux := unit;
     NodeConsensusState := unit;
     NodeConsensusStateAux := unit;
     Prefix := string;
     FlagProve := "prove" |}.

Definition node (hs : HashScheme) (st : Store) : @Collaborators types :=
  {| NewCLIContext := tt : @CLIContext types;
     WithCodec := fun cliCtx _ => cliCtx;
     PrintOutput := fun _ _ => None;
     QueryClientState := fun _ => queryClientState hs st;
     QueryConsensusStateProof := fun _ => queryConsensusState hs st;
     QueryCommitmentRoot := fun _ => queryCommitmentRoot hs st;
     QueryTendermintHeader := fun _ => (tt, tt, None);
     QueryNodeConsensusState := fun _ => (tt, tt, None);
     NewPrefix := fun prefix => prefix |}.

(** A hash scheme and a store to run the queries on: digests are written
    out as terms, and the store holds, at height 7, the state of the
    client [alice] and the root verified for it at height 100. *)
Definition key_text (k : StoreKey) : string :=
  match k with
  | KeyClientState clientID => "clients/" +:+ clientID +:+ "/state"
  | KeyConsensusState clientID => "clients/" +:+ clientID +:+ "/consensus"
  | KeyRoot clientID h => "clients/" +:+ clientID +:+ "/roots/" +:+ pretty h
  end.

Definition sample_hashes : HashScheme :=
  {| hash_leaf := fun path v =>
       "leaf(" +:+ path_prefix path +:+ "/" +:+ key_text (path_key path)
         +:+ "=" +:+ v +:+ ")";
     hash_node := fun l r => "node(" +:+ l +:+ "," +:+ r +:+ ")";
     hash_empty := "empty" |}.

Definition sample_store : Store :=
  {| latest := 7;
     snapshots :=
       {[ 7 := Node (Leaf (clientStatePath "alice") "state-of-alice")
                    (Node Empty (Leaf (rootPath "alice" 100) "root-100")) ]} |}.

End store.

(** ** Notions for the further properties *)

(** The commands of query.go that validate the number of their positional
    arguments, each with the number it accepts. *)
Definition commands_with_arity `{Collaborators} (queryRoute : string)
    (cdc : Codec) : list (cobra.Command * nat) :=
  [ (cli.GetCmdQueryClientState queryRoute cdc, 1%nat);
    (cli.GetCmdQueryConsensusState queryRoute cdc, 1%nat);
    (cli.GetCmdQueryRoot queryRoute cdc, 2%nat);
    (cli.GetCmdNodeConsensusState queryRoute cdc, 0%nat) ].

(** The five commands of query.go that ask a query of [utils]. *)
Definition query_commands `{Collaborators} (queryRoute : string)
    (cdc : Codec) : list cobra.Command :=
  [ cli.GetCmdQueryClientState queryRoute cdc;
    cli.GetCmdQueryConsensusState queryRoute cdc;
    cli.GetCmdQueryRoot queryRoute cdc;
    cli.GetCmdQueryHeader cdc;
    cli.GetCmdNodeConsensusState queryRoute cdc ].

(** The six commands of query.go. *)
Definition commands `{Collaborators} (queryRoute storeName : string)
    (cdc : Codec) : list cobra.Command :=
  query_commands queryRoute cdc ++ [cli.GetCmdQueryPath storeName cdc].

(** The calls of a run that went to [PrintOutput]. *)
Definition prints `{ClientTypes} (tr : list Event) : list Event :=
  List.filter (fun ev => negb (is_query ev)) tr.


(** The longest prefix of a string that holds decimal digits only. *)
Fixpoint digit_prefix (s : string) : string :=
  match s with
  | EmptyString => EmptyString
  | String c rest =>
      if is_digit c then String c (digit_prefix rest) else EmptyString
  end.

(** What [utf8.DecodeRuneInString] can return, in arithmetic: the error
    rune with the width 0 (on the empty string) or 1, or the rune that the
    one to four bytes at the head of the string encode, which lie in the
    ranges that UTF-8 allows. *)
Inductive DecodedRune : string -> Z -> nat -> Prop :=
| decoded_empty : DecodedRune EmptyString utf8.RuneError 0
| decoded_invalid (c0 : ascii) (t : string) :
    DecodedRune (String c0 t) utf8.RuneError 1
| decoded_1 (c0 : ascii) (t : string) :
    byte_val c0 < 0x80 ->
    DecodedRune (String c0 t) (byte_val c0) 1
| decoded_2 (c0 c1 : ascii) (t : string) :
    0xC2 <= byte_val c0 <= 0xDF ->
    0x80 <= byte_val c1 <= 0xBF ->
    DecodedRune (String c0 (String c1 t))
      ((byte_val c0 - 0xC0) * 64 + (byte_val c1 - 0x80)) 2
| decoded_3 (c0 c1 c2 : ascii) (t : string) :
    0xE0 <= byte_val c0 <= 0xEF ->
    0x80 <= byte_val c1 <= 0xBF ->
    (byte_val c0 = 0xE0 -> 0xA0 <= byte_val c1) ->
    (byte_val c0 = 0xED -> byte_val c1 <= 0x9F) ->
    0x80 <= byte_val c2 <= 0xBF ->
    DecodedRune (String c0 (String c1 (String c2 t)))
      ((byte_val c0 - 0xE0) * 4096 + (byte_val c1 - 0x80) * 64
       + (byte_val c2 - 0x80)) 3
| decoded_4 (c0 c1 c2 c3 : ascii) (t : string) :
    0xF0 <= byte_val c0 <= 0xF4 ->
    0x80 <= byte_val c1 <= 0xBF ->
    (byte_val c0 = 0xF0 -> 0x90 <= byte_val c1) ->
    (byte_val c0 = 0xF4 -> byte_val c1 <= 0x8F) ->
    0x80 <= byte_val c2 <= 0xBF ->
    0x80 <= byte_val c3 <= 0xBF ->
    DecodedRune (String c0 (String c1 (String c2 (String c3 t))))
      ((byte_val c0 - 0xF0) * 262144 + (byte_val c1 - 0x80) * 4096
       + (byte_val c2 - 0x80) * 64 + (byte_val c3 - 0x80)) 4.

(** * Properties *)

(** ** The library functions on small inputs *)

Example TrimSpace_ascii : strings.TrimSpace "  ab c  " = "ab c"%string.
Proof. reflexivity. Qed.

Example TrimSpace_no_break_space :
  strings.TrimSpace (utf8.EncodeRune 0xA0 +:+ " x ") = "x"%string.
Proof. reflexivity. Qed.

Example TrimSpace_em_space :
  strings.TrimSpace (utf8.EncodeRune 0x2003 +:+ " ") = EmptyString.
Proof. reflexivity. Qed.

Example TrimSpace_trailing_ideographic_space :
  strings.TrimSpace (" x" +:+ utf8.EncodeRune 0x3000 +:+ " ") = "x"%string.
Proof. reflexivity. Qed.

(** U+200B, the zero width space, is not white space. *)
Example TrimSpace_zero_width_space :
  strings.TrimSpace (" x" +:+ utf8.EncodeRune 0x200B +:+ " ")
  = ("x" +:+ utf8.EncodeRune 0x200B)%string.
Proof. reflexivity. Qed.

Example DecodeLastRune_three_bytes :
  utf8.DecodeLastRuneInString ("ab" +:+ utf8.EncodeRune 0x3000)
  = (0x3000, 3%nat).
Proof. reflexivity. Qed.

Example DecodeLastRune_cut_short :
  utf8.DecodeLastRuneInString (String (byte_of 0xE3) (String (byte_of 0x80) ""))
  = (utf8.RuneError, 1%nat).
Proof. reflexivity. Qed.

Example ParseUint_max :
  strconv.ParseUint "18446744073709551615" = (18446744073709551615, None).
Proof. reflexivity. Qed.

Example ParseUint_leading_zeros : strconv.ParseUint "007" = (7, None).
Proof. reflexivity. Qed.

Example ParseUint_overflow :
  strconv.ParseUint "18446744073709551616"
  = (18446744073709551615,
     Some (NumError "ParseUint" "18446744073709551616" strconv.ErrRange)).
Proof. reflexivity. Qed.

Example ParseUint_minus :
  strconv.ParseUint "-1"
  = (0, Some (NumError "ParseUint" "-1" strconv.ErrSyntax)).
Proof. reflexivity. Qed.

Example ParseUint_plus :
  strconv.ParseUint "+7"
  = (0, Some (NumError "ParseUint" "+7" strconv.ErrSyntax)).
Proof. reflexivity. Qed.

Example ParseUint_empty :
  strconv.ParseUint "" = (0, Some (NumError "ParseUint" "" strconv.ErrSyntax)).
Proof. reflexivity. Qed.

Example ExactArgs_message :
  cobra.ExactArgs 2 ["alice"%string]
  = Some (errorString "accepts 2 arg(s), received 1").
Proof. reflexivity. Qed.

(** ** White space and [strings.TrimSpace] *)

Lemma IsSpace_cases (r : Z) :
  unicode.IsSpace r = true -> In r space_runes.
Proof.
  unfold unicode.IsSpace, unicode.MaxLatin1, space_runes.
  destruct ((0 <=? r) && (r <=? 255)) eqn:Hlatin.
  - rewrite !orb_true_iff, !Z.eqb_eq. simpl. intuition auto.
  - destruct (r <? 0) eqn:Hneg; [discriminate|].
    unfold unicode.isExcludingLatin, unicode.is16. simpl.
    destruct (r <=? 12288) eqn:Hhi; [|discriminate].
    apply Z.leb_le in Hhi.
    rewrite !orb_true_iff, !andb_true_iff, !Z.leb_le.
    simpl. lia.
Qed.

Lemma IsSpace_space_runes (r : Z) :
  In r space_runes -> unicode.IsSpace r = true.
Proof.
  unfold space_runes. simpl.
  intros Hr. repeat (destruct Hr as [<- | Hr]; [reflexivity|]). destruct Hr.
Qed.

(** Past the encoding of a white space rune, the search of [indexFunc] for
    a rune that is not white space goes on in the rest of the string. *)
Lemma indexFunc_range_space (r : Z) (s : string) :
  In r space_runes ->
  (forall i, strings.indexFunc_range s unicode.IsSpace false i 0 = -1) ->
  forall i,
    strings.indexFunc_range (utf8.EncodeRune r +:+ s) unicode.IsSpace false i 0
    = -1.
Proof.
  unfold space_runes. simpl.
  intros Hr Hs i.
  repeat (destruct Hr as [<- | Hr]; [cbn; apply Hs|]). destruct Hr.
Qed.

Lemma indexFunc_range_blank (rs : list Z) :
  Forall (fun r => unicode.IsSpace r = true) rs ->
  forall i,
    strings.indexFunc_range (EncodeRunes rs) unicode.IsSpace false i 0 = -1.
Proof.
  induction 1 as [|r rs Hr _ IH]; intros i.
  - reflexivity.
  - cbn [EncodeRunes fold_right].
    apply indexFunc_range_space; [by apply IsSpace_cases | exact IH].
Qed.

Lemma TrimFunc_blank (rs : list Z) :
  Forall (fun r => unicode.IsSpace r = true) rs ->
  strings.TrimFunc (EncodeRunes rs) unicode.IsSpace = EmptyString.
Proof.
  intros Hrs. unfold strings.TrimFunc, strings.TrimLeftFunc, strings.indexFunc.
  rewrite indexFunc_range_blank by done. reflexivity.
Qed.

Lemma TrimSpace_start_space (r : Z) (rs : list Z) :
  In r space_runes ->
  Forall (fun r => unicode.IsSpace r = true) rs ->
  strings.TrimSpace_start (EncodeRunes rs) = EmptyString ->
  strings.TrimSpace_start (EncodeRunes (r :: rs)) = EmptyString.
Proof.
  intros Hr Hrs IH.
  assert (Hall : Forall (fun r => unicode.IsSpace r = true) (r :: rs)).
  { constructor; [by apply IsSpace_space_runes | done]. }
  pose proof (TrimFunc_blank (r :: rs) Hall) as Hfunc.
  revert Hfunc. cbn [EncodeRunes fold_right]. fold (EncodeRunes rs).
  unfold space_runes in Hr. simpl in Hr.
  repeat (destruct Hr as [<- | Hr]; [intros Hfunc; first [exact IH | exact Hfunc]|]).
  destruct Hr.
Qed.

Lemma TrimSpace_blank (s : string) :
  blank s -> strings.TrimSpace s = EmptyString.
Proof.
  intros (rs & Hrs & ->). unfold strings.TrimSpace.
  induction Hrs as [|r rs Hr Hrs IH].
  - reflexivity.
  - apply TrimSpace_start_space; [by apply IsSpace_cases | done | exact IH].
Qed.

(** ** The fuel of [lastIndexFunc] *)

Lemma lastRuneStart_le (s : string) (left : nat) :
  forall start, utf8.lastRuneStart s start left <= start.
Proof.
  induction left as [|left IH]; intros start; cbn; [lia|].
  destruct (utf8.RuneStart _); [lia|]. specialize (IH (start - 1)). lia.
Qed.

Lemma slice_to_length (s : string) :
  forall j, (j <= String.length s)%nat -> String.length (slice_to j s) = j.
Proof.
  induction s as [|c s IH]; intros [|j] Hj; cbn in *; try lia.
  rewrite IH; lia.
Qed.

(** The last rune of a string that is not empty is one to four bytes wide,
    and no wider than the string. *)
Lemma DecodeLastRuneInString_size (s : string) :
  (0 < String.length s)%nat ->
  (1 <= (utf8.DecodeLastRuneInString s).2 <= String.length s)%nat.
Proof.
  intros Hlen. unfold utf8.DecodeLastRuneInString.
  destruct (Z.eqb_spec (Z.of_nat (String.length s)) 0); [lia|].
  destruct (_ <? utf8.RuneSelf); [cbn; lia|].
  match goal with
  | |- context [utf8.lastRuneStart ?s ?start ?left] =>
      pose proof (lastRuneStart_le s left start) as Hle
  end.
  destruct (utf8.DecodeRuneInString _) as [r size].
  match goal with
  | |- context [negb (?a =? ?b)] => destruct (Z.eqb_spec a b)
  end; cbn; lia.
Qed.

(** The loop of [lastIndexFunc] does not run out of fuel: from an index
    within the string, any fuel that is at least the index gives the same
    result. *)
Lemma lastIndexFunc_loop_fuel (s : string) (f : Z -> bool) (truth : bool) :
  forall fuel fuel' i,
    (i <= String.length s)%nat -> (i <= fuel)%nat -> (i <= fuel')%nat ->
    strings.lastIndexFunc_loop s f truth i fuel
    = strings.lastIndexFunc_loop s f truth i fuel'.
Proof.
  induction fuel as [|fuel IH]; intros fuel' i Hlen Hfuel Hfuel'.
  - assert (i = 0%nat) as -> by lia. by destruct fuel'.
  - destruct fuel' as [|fuel'].
    { assert (i = 0%nat) as -> by lia. reflexivity. }
    cbn. destruct (Nat.eqb_spec i 0); [reflexivity|].
    pose proof (DecodeLastRuneInString_size (slice_to i s)) as Hsize.
    rewrite slice_to_length in Hsize by lia.
    destruct (utf8.DecodeLastRuneInString (slice_to i s)) as [r size].
    cbn in Hsize. destruct (Bool.eqb (f r) truth); [reflexivity|].
    apply IH; lia.
Qed.

(** ** Decimal numerals and [strconv.ParseUint] *)

Lemma is_digit_val (c : ascii) :
  is_digit c = true -> 0 <= byte_val c - 0x30 <= 9.
Proof.
  unfold is_digit. rewrite andb_true_iff, !Z.leb_le. lia.
Qed.

Lemma decimal_value_from_ge (s : string) :
  all_digits s = true -> forall acc, 0 <= acc -> acc <= decimal_value_from acc s.
Proof.
  induction s as [|c s IH]; intros Hs acc Hacc; simpl in *.
  - lia.
  - apply andb_true_iff in Hs as [Hc Hs]. apply is_digit_val in Hc.
    etransitivity; [|apply IH; [done | lia]]. lia.
Qed.

(** On a string of digits the loop of [ParseUint] computes the number the
    digits denote, when it is below 2^64, and reports a range error
    otherwise. *)
Lemma ParseUint_loop_digits (s0 s : string) :
  all_digits s = true ->
  forall n, 0 <= n < 2 ^ 64 ->
    strconv.ParseUint_loop s0 s n =
      if decimal_value_from n s <? 2 ^ 64
      then (decimal_value_from n s, None)
      else (strconv.maxVal, Some (strconv.rangeError strconv.fnParseUint s0)).
Proof.
  induction s as [|c s IH]; intros Hs n Hn; simpl in Hs |- *.
  - destruct (Z.ltb_spec n (2 ^ 64)); [reflexivity | lia].
  - apply andb_true_iff in Hs as [Hc Hs].
    pose proof (is_digit_val c Hc) as Hd.
    unfold is_digit in Hc. rewrite Hc. cbn match.
    pose proof (decimal_value_from_ge s Hs (10 * n + (byte_val c - 48))) as Hge.
    unfold strconv.base, strconv.cutoff, strconv.maxUint64.
    destruct (Z.leb_spec 10 (byte_val c - 48)); [lia|].
    change (2 ^ 64 - 1) with 18446744073709551615.
    change (18446744073709551615 / 10 + 1) with 1844674407370955162.
    destruct (Z.leb_spec 1844674407370955162 n) as [Hcut|Hcut].
    { destruct (Z.ltb_spec (decimal_value_from (10 * n + (byte_val c - 48)) s)
                           (2 ^ 64)); [lia | reflexivity]. }
    unfold strconv.wrap64.
    rewrite (Z.mod_small (n * 10)) by lia.
    change strconv.maxVal with 18446744073709551615.
    destruct (Z.ltb_spec (10 * n + (byte_val c - 48)) (2 ^ 64)) as [Hfit|Hover].
    + rewrite (Z.mod_small (n * 10 + _)) by lia.
      destruct (Z.ltb_spec (n * 10 + (byte_val c - 48)) (n * 10)); [lia|].
      destruct (Z.ltb_spec 18446744073709551615 (n * 10 + (byte_val c - 48)));
        [lia|]. cbn [orb].
      rewrite IH by (done || lia). by rewrite (Z.mul_comm n 10).
    + assert (Hwrap : (n * 10 + (byte_val c - 48)) mod 2 ^ 64
                      = n * 10 + (byte_val c - 48) - 2 ^ 64).
      { symmetry. apply Z.mod_unique with (q := 1); lia. }
      rewrite Hwrap.
      destruct (Z.ltb_spec (n * 10 + (byte_val c - 48) - 2 ^ 64) (n * 10));
        [|lia]. cbn [orb].
      destruct (Z.ltb_spec (decimal_value_from (10 * n + (byte_val c - 48)) s)
                           (2 ^ 64)); [lia | reflexivity].
Qed.

(** A byte that is not a decimal digit ends the loop with a syntax error:
    it is no digit of any base, or it is a letter, whose value is 10 or
    more. *)
Lemma ParseUint_loop_not_digits (s0 s : string) :
  all_digits s = false ->
  forall n, is_Some_bool (snd (strconv.ParseUint_loop s0 s n)) = true.
Proof.
  induction s as [|c s IH]; intros Hs n; simpl in Hs |- *; [discriminate|].
  destruct (is_digit c) eqn:Hc.
  - pose proof (is_digit_val c Hc) as Hd.
    unfold is_digit in Hc. rewrite Hc. cbn match.
    unfold strconv.base.
    destruct (Z.leb_spec 10 (byte_val c - 48)); [lia|].
    destruct (strconv.cutoff <=? n); [reflexivity|].
    destruct (_ || _); [reflexivity|].
    apply IH. exact Hs.
  - unfold is_digit in Hc. rewrite Hc.
    destruct ((97 <=? strconv.lower (byte_val c))
              && (strconv.lower (byte_val c) <=? 122)) eqn:Hletter;
      [|reflexivity].
    apply andb_true_iff in Hletter as [Hlo _]. apply Z.leb_le in Hlo.
    unfold strconv.base.
    destruct (Z.leb_spec 10 (strconv.lower (byte_val c) - 97 + 10));
      [reflexivity | lia].
Qed.

(** [strconv.ParseUint(s, 10, 64)] succeeds on the numerals of the
    unsigned integers of 64 bits, and on nothing else. *)
Lemma ParseUint_error (s : string) :
  is_Some_bool (snd (strconv.ParseUint s)) = negb (uint64_numeral s).
Proof.
  unfold strconv.ParseUint, uint64_numeral, decimal_numeral, decimal_value.
  destruct (String.eqb s "") eqn:Hnil; [reflexivity|]. cbn [negb andb].
  destruct (all_digits s) eqn:Hs.
  - rewrite ParseUint_loop_digits by (done || lia). cbn [andb].
    by destruct (_ <? _).
  - by rewrite ParseUint_loop_not_digits.
Qed.

Lemma ParseUint_value (s : string) :
  uint64_numeral s = true ->
  strconv.ParseUint s = (decimal_value s, None).
Proof.
  unfold strconv.ParseUint, uint64_numeral, decimal_numeral, decimal_value.
  intros Hs. apply andb_true_iff in Hs as [Hs Hval].
  apply andb_true_iff in Hs as [Hnil Hs].
  apply negb_true_iff in Hnil. rewrite Hnil.
  rewrite ParseUint_loop_digits by (done || lia). by rewrite Hval.
Qed.

(** ** The runs of the commands *)

Section runs.
Context `{Collaborators}.
Variables (queryRoute storeName : string) (cdc : Codec).

Lemma GetBool_flag (prove : option bool) :
  viper.GetBool (flag FlagProve prove ∪ <[FlagProve := true]> ∅) FlagProve
  = default true prove.
Proof.
  unfold viper.GetBool, flag. destruct prove as [b|]; cbn [default].
  - by rewrite lookup_union_l', lookup_singleton_eq
      by (rewrite lookup_singleton_eq; eauto).
  - by rewrite (left_id ∅ (∪)), lookup_insert_eq.
Qed.

Lemma Exec_bind_ret {A B : Type} (a : A) (k : A -> Exec B) :
  mret a ≫= k = k a.
Proof. reflexivity. Qed.

(** The run of a body that asks one query and prints its result. *)
Lemma run_query {R : Type} (ask : Event) (answer : R * option error)
    (cliCtx : CLIContext) (wrap : R -> Printable) :
  run ('(res, err) ← call ask answer;
       _ ← return_if_err err;
       err ← call (CallPrintOutput cliCtx (wrap res))
                  (PrintOutput cliCtx (wrap res));
       return_ err)
  = match answer with
    | (res, Some e) => (Returned (Some e), [ask])
    | (res, None) =>
        (Returned (PrintOutput cliCtx (wrap res)),
         [ask; CallPrintOutput cliCtx (wrap res)])
    end.
Proof. by destruct answer as [res [e|]]. Qed.

Lemma GetClientState_run (clientID : string) (prove : option bool) :
  GetClientState queryRoute cdc clientID prove =
    if String.eqb (strings.TrimSpace clientID) "" then
      (Returned (Some (errors.New "client ID can't be blank")), [])
    else
      let cliCtx := WithCodec NewCLIContext cdc in
      let p := default true prove in
      match QueryClientState cliCtx clientID p with
      | (res, Some e) =>
          (Returned (Some e), [CallQueryClientState cliCtx clientID p])
      | (res, None) =>
          (Returned (PrintOutput cliCtx (PStateResponse res)),
           [CallQueryClientState cliCtx clientID p;
            CallPrintOutput cliCtx (PStateResponse res)])
      end.
Proof.
  unfold GetClientState, cobra.Execute. cbn.
  rewrite GetBool_flag, Exec_bind_ret.
  destruct (String.eqb (strings.TrimSpace clientID) ""); [reflexivity|].
  apply (run_query _ _ _ PStateResponse).
Qed.

Lemma GetConsensusState_run (clientID : string) (prove : option bool) :
  GetConsensusState queryRoute cdc clientID prove =
    if String.eqb (strings.TrimSpace clientID) "" then
      (Returned (Some (errors.New "client ID can't be blank")), [])
    else
      let cliCtx := WithCodec NewCLIContext cdc in
      let p := default true prove in
      match QueryConsensusStateProof cliCtx clientID p with
      | (res, Some e) =>
          (Returned (Some e),
           [CallQueryConsensusStateProof cliCtx clientID p])
      | (res, None) =>
          (Returned (PrintOutput cliCtx (PConsensusStateResponse res)),
           [CallQueryConsensusStateProof cliCtx clientID p;
            CallPrintOutput cliCtx (PConsensusStateResponse res)])
      end.
Proof.
  unfold GetConsensusState, cobra.Execute. cbn.
  rewrite GetBool_flag, Exec_bind_ret.
  destruct (String.eqb (strings.TrimSpace clientID) ""); [reflexivity|].
  apply (run_query _ _ _ PConsensusStateResponse).
Qed.

Lemma GetCommitmentRoot_run (clientID tok : string) (prove : option bool) :
  GetCommitmentRoot queryRoute cdc clientID tok prove =
    if String.eqb (strings.TrimSpace clientID) "" then
      (Returned (Some (errors.New "client ID can't be blank")), [])
    else if is_Some_bool (snd (strconv.ParseUint tok)) then
      (Returned (Some (fmt.Errorf "expected integer height, got: %v"
                         [fmt.str tok])), [])
    else
      let cliCtx := WithCodec NewCLIContext cdc in
      let h := fst (strconv.ParseUint tok) in
      let p := default true prove in
      match QueryCommitmentRoot cliCtx clientID h p with
      | (res, Some e) =>
          (Returned (Some e), [CallQueryCommitmentRoot cliCtx clientID h p])
      | (res, None) =>
          (Returned (PrintOutput cliCtx (PRootResponse res)),
           [CallQueryCommitmentRoot cliCtx clientID h p;
            CallPrintOutput cliCtx (PRootResponse res)])
      end.
Proof.
  unfold GetCommitmentRoot, cobra.Execute. cbn.
  rewrite GetBool_flag, Exec_bind_ret.
  destruct (String.eqb (strings.TrimSpace clientID) ""); [reflexivity|].
  rewrite Exec_bind_ret.
  destruct (strconv.ParseUint tok) as [h err]. cbn [fst snd].
  destruct (is_Some_bool err); [reflexivity|].
  apply (run_query _ _ _ PRootResponse).
Qed.

(** The validator [cobra.ExactArgs] keeps the bodies from indexing their
    arguments out of range: whatever the arguments, the commands return. *)
Lemma GetCmdQueryClientState_returns (args : list string)
    (given : gmap string bool) :
  exists err,
    (cobra.Execute (cli.GetCmdQueryClientState queryRoute cdc) args given).1
    = Returned err.
Proof.
  destruct args as [|clientID [|height args]]; [by eexists| |by eexists].
  unfold cobra.Execute. cbn. rewrite Exec_bind_ret.
  destruct (String.eqb (strings.TrimSpace clientID) ""); [by eexists|].
  rewrite (run_query _ _ _ PStateResponse).
  destruct (QueryClientState _ _ _) as [res [e|]]; by eexists.
Qed.

Lemma GetCmdQueryConsensusState_returns (args : list string)
    (given : gmap string bool) :
  exists err,
    (cobra.Execute (cli.GetCmdQueryConsensusState queryRoute cdc) args given).1
    = Returned err.
Proof.
  destruct args as [|clientID [|height args]]; [by eexists| |by eexists].
  unfold cobra.Execute. cbn. rewrite Exec_bind_ret.
  destruct (String.eqb (strings.TrimSpace clientID) ""); [by eexists|].
  rewrite (run_query _ _ _ PConsensusStateResponse).
  destruct (QueryConsensusStateProof _ _ _) as [res [e|]]; by eexists.
Qed.

Lemma GetCmdQueryRoot_returns (args : list string)
    (given : gmap string bool) :
  exists err,
    (cobra.Execute (cli.GetCmdQueryRoot queryRoute cdc) args given).1
    = Returned err.
Proof.
  destruct args as [|clientID [|height [|extra args]]];
    [by eexists|by eexists| |by eexists].
  unfold cobra.Execute. cbn. rewrite Exec_bind_ret.
  destruct (String.eqb (strings.TrimSpace clientID) ""); [by eexists|].
  rewrite Exec_bind_ret.
  destruct (strconv.ParseUint height) as [h err].
  destruct (is_Some_bool err); [by eexists|].
  rewrite (run_query _ _ _ PRootResponse).
  destruct (QueryCommitmentRoot _ _ _ _) as [res [e|]]; by eexists.
Qed.

Lemma GetLatestHeader_run :
  GetLatestHeader cdc =
    let cliCtx := WithCodec NewCLIContext cdc in
    match QueryTendermintHeader cliCtx with
    | (header, _, Some e) =>
        (Returned (Some e), [CallQueryTendermintHeader cliCtx])
    | (header, _, None) =>
        (Returned (PrintOutput cliCtx (PHeader header)),
         [CallQueryTendermintHeader cliCtx;
          CallPrintOutput cliCtx (PHeader header)])
    end.
Proof.
  unfold GetLatestHeader, cobra.Execute. cbn.
  by destruct (QueryTendermintHeader _) as [[header aux] [e|]].
Qed.

Lemma GetNodeConsensusState_run :
  GetNodeConsensusState queryRoute cdc =
    let cliCtx := WithCodec NewCLIContext cdc in
    match QueryNodeConsensusState cliCtx with
    | (state, _, Some e) =>
        (Returned (Some e), [CallQueryNodeConsensusState cliCtx])
    | (state, _, None) =>
        (Returned (PrintOutput cliCtx (PNodeConsensusState state)),
         [CallQueryNodeConsensusState cliCtx;
          CallPrintOutput cliCtx (PNodeConsensusState state)])
    end.
Proof.
  unfold GetNodeConsensusState, cobra.Execute. cbn.
  by destruct (QueryNodeConsensusState _) as [[state aux] [e|]].
Qed.

Lemma append_empty_r (s : string) : s +:+ EmptyString = s.
Proof.
  induction s as [|c s IH]; [done|].
  change (String c (s +:+ EmptyString) = String c s). by rewrite IH.
Qed.

Lemma Sprintf_height (tok : string) :
  fmt.Sprintf "expected integer height, got: %v" [fmt.str tok]
  = "expected integer height, got: " +:+ tok.
Proof.
  transitivity ("expected integer height, got: " +:+ (tok +:+ EmptyString));
    [reflexivity | by rewrite append_empty_r].
Qed.

(** ** The claims about the commands *)

(** C1. For a client identifier that is empty or holds white space only,
    each of GetClientState, GetConsensusState and GetCommitmentRoot
    returns the error "client ID can't be blank", and its run asks the
    store nothing: no query of [utils] is called (and nothing is
    printed). *)
Theorem blank_identifier_rejected (clientID height : string)
    (prove : option bool) :
  blank clientID ->
  GetClientState queryRoute cdc clientID prove
    = (Returned (Some (errors.New "client ID can't be blank")), [])
  /\ GetConsensusState queryRoute cdc clientID prove
    = (Returned (Some (errors.New "client ID can't be blank")), [])
  /\ GetCommitmentRoot queryRoute cdc clientID height prove
    = (Returned (Some (errors.New "client ID can't be blank")), []).
Proof.
  intros Hblank. apply TrimSpace_blank in Hblank.
  rewrite GetClientState_run, GetConsensusState_run, GetCommitmentRoot_run.
  by rewrite Hblank.
Qed.

(** C2. For a height token that is not the base-10 numeral of an unsigned
    integer of 64 bits (such as "abc" or "-1"), GetCommitmentRoot with a
    non-blank identifier returns the error built from "expected integer
    height, got: %v", asks the store nothing, and the message of the
    error holds the token as the caller wrote it. *)
Theorem malformed_height_rejected (clientID height : string)
    (prove : option bool) :
  strings.TrimSpace clientID <> EmptyString ->
  uint64_numeral height = false ->
  GetCommitmentRoot queryRoute cdc clientID height prove
    = (Returned (Some (fmt.Errorf "expected integer height, got: %v"
                         [fmt.str height])), [])
  /\ Error (fmt.Errorf "expected integer height, got: %v" [fmt.str height])
     = "expected integer height, got: " +:+ height
  /\ occurs_in height
       (Error (fmt.Errorf "expected integer height, got: %v"
                 [fmt.str height])).
Proof.
  intros Hid Htok. rewrite GetCommitmentRoot_run.
  apply String.eqb_neq in Hid. rewrite Hid.
  rewrite ParseUint_error, Htok. cbn [negb].
  split; [reflexivity|].
  unfold fmt.Errorf. cbn [Error]. rewrite Sprintf_height.
  split; [reflexivity|].
  exists "expected integer height, got: "%string, EmptyString.
  by rewrite append_empty_r.
Qed.

(** C5. GetCommitmentPrefix hands to the output the prefix made of the
    three bytes "ibc", whatever the store name and codec the command was
    built with, whatever arguments and flags it is run on and whatever
    the collaborators answer; its run asks the store nothing. *)
Theorem commitment_prefix_constant (args : list string)
    (given : gmap string bool) :
  cobra.Execute (cli.GetCmdQueryPath storeName cdc) args given
    = (Returned (PrintOutput (WithCodec NewCLIContext cdc)
                   (PPrefix (NewPrefix "ibc"))),
       [CallPrintOutput (WithCodec NewCLIContext cdc)
          (PPrefix (NewPrefix "ibc"))])
  /\ String.length "ibc" = 3%nat
  /\ GetCommitmentPrefix storeName cdc
     = cobra.Execute (cli.GetCmdQueryPath storeName cdc) args given.
Proof. done. Qed.

(** C6. No query operation yields a partial result: a run of
    GetClientState, GetConsensusState or GetCommitmentRoot either returns
    an error and hands nothing to the output (the error of the query,
    when the query was asked), or the query succeeded and the run hands
    the whole result of the query to the output. *)
Theorem no_partial_result (clientID height : string) (prove : option bool) :
  whole_or_nothing
    (fun k => CallQueryClientState k.1 clientID k.2)
    (fun k => QueryClientState k.1 clientID k.2)
    PStateResponse
    (GetClientState queryRoute cdc clientID prove)
  /\ whole_or_nothing
    (fun k => CallQueryConsensusStateProof k.1 clientID k.2)
    (fun k => QueryConsensusStateProof k.1 clientID k.2)
    PConsensusStateResponse
    (GetConsensusState queryRoute cdc clientID prove)
  /\ whole_or_nothing
    (fun k => CallQueryCommitmentRoot k.1.1 clientID k.1.2 k.2)
    (fun k => QueryCommitmentRoot k.1.1 clientID k.1.2 k.2)
    PRootResponse
    (GetCommitmentRoot queryRoute cdc clientID height prove).
Proof.
  rewrite GetClientState_run, GetConsensusState_run, GetCommitmentRoot_run.
  unfold whole_or_nothing.
  destruct (String.eqb (strings.TrimSpace clientID) "");
    [by repeat split; left; eexists|].
  cbn zeta. repeat split.
  - destruct (QueryClientState _ _ _) as [res [e|]] eqn:Hq; right;
      [left; by exists (WithCodec NewCLIContext cdc, default true prove), res, e
      |right; by exists (WithCodec NewCLIContext cdc, default true prove), res,
                       (WithCodec NewCLIContext cdc)].
  - destruct (QueryConsensusStateProof _ _ _) as [res [e|]] eqn:Hq; right;
      [left; by exists (WithCodec NewCLIContext cdc, default true prove), res, e
      |right; by exists (WithCodec NewCLIContext cdc, default true prove), res,
                       (WithCodec NewCLIContext cdc)].
  - destruct (is_Some_bool _); [by left; eexists|].
    destruct (QueryCommitmentRoot _ _ _ _) as [res [e|]] eqn:Hq; right;
      [left; by exists (WithCodec NewCLIContext cdc,
                        fst (strconv.ParseUint height),
                        default true prove), res, e
      |right; by exists (WithCodec NewCLIContext cdc,
                         fst (strconv.ParseUint height),
                         default true prove), res,
                        (WithCodec NewCLIContext cdc)].
Qed.


(** C8. A height token that is a base-10 numeral of an integer of 2^64 or
    more is rejected: GetCommitmentRoot (with a non-blank identifier)
    returns the error built from "expected integer height, got: %v" and
    asks the store nothing, though the token denotes a non-negative
    integer. *)
Theorem height_bounded_to_64_bits (clientID height : string)
    (prove : option bool) :
  strings.TrimSpace clientID <> EmptyString ->
  decimal_numeral height = true ->
  2 ^ 64 <= decimal_value height ->
  GetCommitmentRoot queryRoute cdc clientID height prove
    = (Returned (Some (fmt.Errorf "expected integer height, got: %v"
                         [fmt.str height])), [])
  /\ (strconv.ParseUint height).2
     = Some (strconv.rangeError "ParseUint" height).
Proof.
  intros Hid Hnum Hbig. rewrite GetCommitmentRoot_run.
  apply String.eqb_neq in Hid. rewrite Hid.
  assert (Hval : (decimal_value height <? 2 ^ 64) = false)
    by by apply Z.ltb_ge.
  rewrite ParseUint_error. unfold uint64_numeral.
  rewrite Hnum, Hval. split; [reflexivity|].
  unfold decimal_numeral in Hnum. apply andb_true_iff in Hnum as [Hnil Hs].
  apply negb_true_iff in Hnil.
  unfold strconv.ParseUint. rewrite Hnil.
  rewrite ParseUint_loop_digits by (done || lia).
  fold (decimal_value height). by rewrite Hval.
Qed.

(** C9. In GetCommitmentRoot the identifier is validated before the
    height is parsed: with a blank identifier and a malformed height
    token the error is the one of the blank identifier, and the run is
    the same whatever the height token is. *)
Theorem identifier_checked_before_height (clientID height : string)
    (prove : option bool) :
  blank clientID ->
  uint64_numeral height = false ->
  GetCommitmentRoot queryRoute cdc clientID height prove
    = (Returned (Some (errors.New "client ID can't be blank")), [])
  /\ forall height' : string,
       GetCommitmentRoot queryRoute cdc clientID height' prove
       = GetCommitmentRoot queryRoute cdc clientID height prove.
Proof.
  intros Hblank _. apply TrimSpace_blank in Hblank.
  split; [|intros height']; rewrite !GetCommitmentRoot_run;
    by rewrite Hblank.
Qed.


(** With the flag left out, the query is asked with [prove] set. *)
Lemma prove_default_asked (clientID : string) :
  strings.TrimSpace clientID <> EmptyString ->
  head (GetClientState queryRoute cdc clientID None).2
  = Some (CallQueryClientState (WithCodec NewCLIContext cdc) clientID true).
Proof.
  intros Hid. rewrite GetClientState_run.
  apply String.eqb_neq in Hid. rewrite Hid. cbn zeta.
  by destruct (QueryClientState _ _ _) as [res [e|]].
Qed.

End runs.

(** ** The store and its proofs *)

Section store_facts.
Variable hs : store.HashScheme.

#[local] Existing Instance store.types.

Lemma fold_left_apply_step_app (steps : store.CommitmentProof)
    (step : store.ProofStep) (digest : string) :
  fold_left (store.apply_step hs) (steps ++ [step]) digest
  = store.apply_step hs (fold_left (store.apply_step hs) steps digest) step.
Proof. by rewrite fold_left_app. Qed.

(** The steps that the store hands out with a value lead from the leaf
    of the value to the root of the snapshot. *)
Lemma tree_getWithProof_root (path : store.CommitmentPath) (t : store.Tree)
    (v : string) (steps : store.CommitmentProof) :
  store.tree_getWithProof hs path t = Some (v, steps) ->
  fold_left (store.apply_step hs) steps (store.hash_leaf hs path v)
  = store.root_hash hs t.
Proof.
  revert v steps.
  induction t as [|path' v'|l IHl r IHr]; intros v steps Hget;
    cbn in Hget.
  - discriminate.
  - destruct (decide (path' = path)) as [->|]; [|discriminate].
    by injection Hget as <- <-.
  - destruct (store.tree_getWithProof hs path l) as [[vl stepsl]|] eqn:Hl.
    + injection Hget as <- <-.
      rewrite fold_left_apply_step_app. cbn. by rewrite (IHl vl stepsl).
    + destruct (store.tree_getWithProof hs path r) as [[vr stepsr]|] eqn:Hr;
        [|discriminate].
      injection Hget as <- <-.
      rewrite fold_left_apply_step_app. cbn. by rewrite (IHr vr stepsr).
Qed.

(** The lookup with a proof finds the value that the plain lookup
    finds. *)
Lemma tree_getWithProof_get (path : store.CommitmentPath) (t : store.Tree) :
  fst <$> store.tree_getWithProof hs path t = store.tree_get path t.
Proof.
  induction t as [|path' v'|l IHl r IHr]; cbn.
  - done.
  - by destruct (decide (path' = path)).
  - destruct (store.tree_getWithProof hs path l) as [[vl stepsl]|];
      cbn in IHl; rewrite <- IHl; [done|].
    destruct (store.tree_getWithProof hs path r) as [[vr stepsr]|];
      cbn in IHr; by rewrite <- IHr.
Qed.

Lemma verify_getWithProof (st : store.Store) (path : store.CommitmentPath)
    (h : Z) (v : string) (steps : store.CommitmentProof) :
  store.getWithProof hs st path h = (Some (v, steps), None) ->
  exists root,
    store.rootAtHeight hs st h = Some root
    /\ store.verify hs root path v steps = true.
Proof.
  unfold store.getWithProof, store.rootAtHeight, store.verify.
  destruct (store.latest st <? h); [discriminate|].
  destruct (store.snapshots st !! h) as [t|]; [|discriminate].
  intros [= Hget]. exists (store.root_hash hs t). split; [done|].
  apply String.eqb_eq. by apply tree_getWithProof_root.
Qed.

(** C3. When GetClientState is run with prove = true on a node that
    serves the store, whatever result it hands to the output carries a
    proof, and [verify] accepts that proof for the value, under the
    client-state path of the identifier, against the root of the store at
    the height of the result. *)
Theorem client_state_proof_verifies (st : store.Store)
    (queryRoute clientID : string) (cliCtx : unit)
    (res : store.QueryResult) :
  In (CallPrintOutput cliCtx (PStateResponse res))
     (@GetClientState _ (store.node hs st) queryRoute tt
        clientID (Some true)).2 ->
  exists steps root,
    store.proof res = Some steps
    /\ store.rootAtHeight hs st (store.height res) = Some root
    /\ store.verify hs root (store.clientStatePath clientID)
         (store.value res) steps = true.
Proof.
  destruct cliCtx. rewrite GetClientState_run.
  destruct (String.eqb (strings.TrimSpace clientID) "") eqn:Hid;
    [intros []|].
  cbn [default store.node QueryClientState].
  unfold store.queryClientState, store.query. rewrite Hid.
  destruct (store.getWithProof hs st _ _) as [[[v steps]|] [e|]] eqn:Hget;
    cbn; intros Hin;
    repeat (destruct Hin as [Hin|Hin]); try discriminate; try contradiction.
  injection Hin as <-.
  apply verify_getWithProof in Hget as (root & Hroot & Hverify).
  by exists steps, root.
Qed.

(** C4. GetCommitmentRoot looks up the root recorded for exactly the
    identifier and the height: when the store holds a root for the client
    at the height [h] and at no other height, the query at the height of
    any token that denotes another height fails with RootNotFound, and
    nothing is handed to the output. *)
Theorem commitment_root_exact_height (st : store.Store)
    (queryRoute clientID height : string) (h : Z) (prove : option bool) :
  strings.TrimSpace clientID <> EmptyString ->
  store.root_recorded st clientID h ->
  (forall k, store.root_recorded st clientID k -> k = h) ->
  uint64_numeral height = true ->
  decimal_value height <> h ->
  @GetCommitmentRoot _ (store.node hs st) queryRoute tt
    clientID height prove
  = (Returned (Some (QueryError RootNotFound "not found")),
     [CallQueryCommitmentRoot tt clientID
        (decimal_value height) (default true prove)]).
Proof.
  intros Hid (t & Hsnap & Hrec) Honly Htok Hne.
  rewrite GetCommitmentRoot_run.
  apply String.eqb_neq in Hid. rewrite Hid.
  rewrite ParseUint_error, Htok, (ParseUint_value _ Htok).
  cbn [negb fst default store.node QueryCommitmentRoot].
  assert (Hnone : store.tree_get
                    (store.rootPath clientID (decimal_value height)) t = None).
  { destruct (store.tree_get
                (store.rootPath clientID (decimal_value height)) t)
      as [v|] eqn:Hget; [|done].
    destruct Hne. apply Honly. exists t. split; [done|].
    rewrite Hget. by eexists. }
  unfold store.queryCommitmentRoot, store.query,
    store.getWithProof, store.get.
  rewrite Hid, Z.ltb_irrefl, Hsnap.
  pose proof (tree_getWithProof_get
                (store.rootPath clientID (decimal_value height)) t) as Hwith.
  rewrite Hnone in Hwith.
  destruct (store.tree_getWithProof hs _ t) as [[v steps]|];
    [discriminate|].
  rewrite Hnone. by destruct (default true prove).
Qed.

End store_facts.

(** ** The theorems at work

    The statements above, at a node that serves [store.sample_store]. *)

Lemma blank_identifier_rejected_witness :
  blank (EncodeRunes [0x20; 0x3000; 0x09])
  /\ (@GetClientState _ (store.node store.sample_hashes store.sample_store)
        "ibc" tt (EncodeRunes [0x20; 0x3000; 0x09]) None).1
     = Returned (Some (errorString "client ID can't be blank")).
Proof.
  assert (Hblank : blank (EncodeRunes [0x20; 0x3000; 0x09])).
  { exists [0x20; 0x3000; 0x09]. split; [|reflexivity].
    repeat constructor. }
  split; [exact Hblank|].
  destruct (@blank_identifier_rejected _
              (store.node store.sample_hashes store.sample_store)
              "ibc" tt _ "7" None Hblank) as [-> _].
  reflexivity.
Defined.

Lemma malformed_height_rejected_witness :
  strings.TrimSpace "alice" <> EmptyString
  /\ uint64_numeral "-1" = false
  /\ @GetCommitmentRoot _ (store.node store.sample_hashes store.sample_store)
       "ibc" tt "alice" "-1" None
     = (Returned (Some (errorString "expected integer height, got: -1")), []).
Proof.
  assert (Hid : strings.TrimSpace "alice" <> EmptyString) by (vm_compute; discriminate).
  assert (Htok : uint64_numeral "-1" = false) by reflexivity.
  split; [exact Hid|]. split; [exact Htok|].
  destruct (@malformed_height_rejected _
              (store.node store.sample_hashes store.sample_store)
              "ibc" tt "alice" "-1" None Hid Htok) as [-> _].
  reflexivity.
Defined.

Lemma client_state_proof_verifies_witness :
  exists steps root,
    steps = [store.HashWithSiblingOnRight
               "node(empty,leaf(ibc/clients/alice/roots/100=root-100))"]
    /\ store.rootAtHeight store.sample_hashes store.sample_store 7 = Some root
    /\ store.verify store.sample_hashes root (store.clientStatePath "alice")
         "state-of-alice" steps = true.
Proof.
  destruct (client_state_proof_verifies store.sample_hashes store.sample_store
              "ibc" "alice" tt
              {| store.value := "state-of-alice"; store.height := 7;
                 store.proof :=
                   Some [store.HashWithSiblingOnRight
                     "node(empty,leaf(ibc/clients/alice/roots/100=root-100))"] |})
    as (steps & root & Hsteps & Hroot & Hverify).
  { vm_compute. right. left. reflexivity. }
  injection Hsteps as <-.
  by eexists _, root.
Defined.

Lemma commitment_root_exact_height_witness :
  store.root_recorded store.sample_store "alice" 100
  /\ decimal_value "99" = 99
  /\ @GetCommitmentRoot _ (store.node store.sample_hashes store.sample_store)
       "ibc" tt "alice" "99" None
     = (Returned (Some (QueryError RootNotFound "not found")),
        [@CallQueryCommitmentRoot store.types tt "alice" 99 true]).
Proof.
  assert (Hrec : store.root_recorded store.sample_store "alice" 100).
  { eexists. split; [reflexivity|]. vm_compute. by eexists. }
  assert (Honly : forall k, store.root_recorded store.sample_store "alice" k
                            -> k = 100).
  { intros k (t & Hsnap & Hget). vm_compute in Hsnap. injection Hsnap as <-.
    cbn [store.tree_get] in Hget.
    repeat case_decide; try discriminate;
      [|by destruct Hget].
    match goal with Heq : _ = store.rootPath _ _ |- _ => by injection Heq end. }
  split; [exact Hrec|]. split; [reflexivity|].
  apply (commitment_root_exact_height store.sample_hashes store.sample_store
           "ibc" "alice" "99" 100 None).
  - vm_compute; discriminate.
  - exact Hrec.
  - exact Honly.
  - reflexivity.
  - vm_compute; discriminate.
Defined.


Lemma height_bounded_to_64_bits_witness :
  strings.TrimSpace "alice" <> EmptyString
  /\ decimal_numeral "18446744073709551616" = true
  /\ 2 ^ 64 <= decimal_value "18446744073709551616"
  /\ @GetCommitmentRoot _ (store.node store.sample_hashes store.sample_store)
       "ibc" tt "alice" "18446744073709551616" None
     = (Returned (Some (errorString
          "expected integer height, got: 18446744073709551616")), []).
Proof.
  assert (Hid : strings.TrimSpace "alice" <> EmptyString) by (vm_compute; discriminate).
  assert (Hnum : decimal_numeral "18446744073709551616" = true) by reflexivity.
  assert (Hbig : 2 ^ 64 <= decimal_value "18446744073709551616")
    by (vm_compute; discriminate).
  split; [exact Hid|]. split; [exact Hnum|]. split; [exact Hbig|].
  destruct (@height_bounded_to_64_bits _
              (store.node store.sample_hashes store.sample_store)
              "ibc" tt "alice" "18446744073709551616" None Hid Hnum Hbig)
    as [-> _].
  reflexivity.
Defined.

Lemma identifier_checked_before_height_witness :
  blank " "
  /\ uint64_numeral "abc" = false
  /\ @GetCommitmentRoot _ (store.node store.sample_hashes store.sample_store)
       "ibc" tt " " "abc" None
     = (Returned (Some (errorString "client ID can't be blank")), []).
Proof.
  assert (Hblank : blank " ").
  { exists [0x20]. split; [|reflexivity]. repeat constructor. }
  assert (Htok : uint64_numeral "abc" = false) by reflexivity.
  split; [exact Hblank|]. split; [exact Htok|].
  destruct (@identifier_checked_before_height _
              (store.node store.sample_hashes store.sample_store)
              "ibc" tt " " "abc" None Hblank Htok) as [-> _].
  reflexivity.
Defined.

(** The flag has an effect: with prove = false the result carries no
    proof. *)
Example GetClientState_without_proof :
  @GetClientState _ (store.node store.sample_hashes store.sample_store)
    "ibc" tt "alice" (Some false)
  = (Returned None,
     [@CallQueryClientState store.types tt "alice" false;
      @CallPrintOutput store.types tt
        (@PStateResponse store.types
           {| store.value := "state-of-alice"; store.height := 7;
              store.proof := None |})]).
Proof. reflexivity. Qed.

(** The root recorded at height 100 is found with a token of that height,
    and its proof verifies. *)
Example GetCommitmentRoot_recorded_height :
  @GetCommitmentRoot _ (store.node store.sample_hashes store.sample_store)
    "ibc" tt "alice" "100" None
  = (Returned None,
     [@CallQueryCommitmentRoot store.types tt "alice" 100 true;
      @CallPrintOutput store.types tt
        (@PRootResponse store.types
           {| store.value := "root-100"; store.height := 7;
              store.proof :=
                Some [store.HashWithSiblingOnLeft "empty";
                      store.HashWithSiblingOnLeft
                        "leaf(ibc/clients/alice/state=state-of-alice)"] |})])
  /\ store.verify store.sample_hashes
       (store.root_hash store.sample_hashes
          (store.Node (store.Leaf (store.clientStatePath "alice") "state-of-alice")
             (store.Node store.Empty
                (store.Leaf (store.rootPath "alice" 100) "root-100"))))
       (store.rootPath "alice" 100) "root-100"
       [store.HashWithSiblingOnLeft "empty";
        store.HashWithSiblingOnLeft
          "leaf(ibc/clients/alice/state=state-of-alice)"] = true.
Proof. split; reflexivity. Qed.

(** A proof does not verify for another value. *)
Example verify_rejects_other_value :
  store.verify store.sample_hashes
    (store.root_hash store.sample_hashes
       (store.Node (store.Leaf (store.clientStatePath "alice") "state-of-alice")
          (store.Node store.Empty
             (store.Leaf (store.rootPath "alice" 100) "root-100"))))
    (store.rootPath "alice" 100) "root-101"
    [store.HashWithSiblingOnLeft "empty";
     store.HashWithSiblingOnLeft
       "leaf(ibc/clients/alice/state=state-of-alice)"] = false.
Proof. reflexivity. Qed.

(** Without its validator the body of a command would index its arguments
    out of range. *)
Example RunE_without_arguments :
  (run (cobra.RunE
          (@cli.GetCmdQueryClientState _
             (store.node store.sample_hashes store.sample_store) "ibc" tt)
          ∅ [])).1
  = Panicked "runtime error: index out of range".
Proof. reflexivity. Qed.

(** * Further properties of the commands *)

Section more_runs.
Context `{Collaborators}.
Variables (queryRoute storeName : string) (cdc : Codec).

Lemma GetBool_given (given : gmap string bool) :
  viper.GetBool (given ∪ <[FlagProve := true]> ∅) FlagProve
  = default true (given !! FlagProve).
Proof.
  unfold viper.GetBool.
  destruct (given !! FlagProve) as [b|] eqn:Hg; cbn [default].
  - by rewrite (lookup_union_Some_l _ _ _ _ Hg).
  - by rewrite lookup_union_r, lookup_insert_eq.
Qed.

Lemma flag_lookup (prove : option bool) :
  flag FlagProve prove !! FlagProve = prove.
Proof.
  destruct prove as [b|]; cbn; [apply lookup_singleton_eq | apply lookup_empty].
Qed.

(** The run of a command on any arguments and flags: the validator of the
    arguments decides first, and of the flags only [prove] is read. *)
Lemma Execute_GetCmdQueryClientState (args : list string)
    (given : gmap string bool) :
  cobra.Execute (cli.GetCmdQueryClientState queryRoute cdc) args given =
    match args with
    | [clientID] => GetClientState queryRoute cdc clientID (given !! FlagProve)
    | _ => (Returned (cobra.ExactArgs 1 args), [])
    end.
Proof.
  destruct args as [|clientID [|height args]]; [done| |done].
  rewrite GetClientState_run.
  unfold cobra.Execute. cbn. rewrite GetBool_given, Exec_bind_ret.
  destruct (String.eqb (strings.TrimSpace clientID) ""); [reflexivity|].
  apply (run_query _ _ _ PStateResponse).
Qed.

Lemma Execute_GetCmdQueryConsensusState (args : list string)
    (given : gmap string bool) :
  cobra.Execute (cli.GetCmdQueryConsensusState queryRoute cdc) args given =
    match args with
    | [clientID] =>
        GetConsensusState queryRoute cdc clientID (given !! FlagProve)
    | _ => (Returned (cobra.ExactArgs 1 args), [])
    end.
Proof.
  destruct args as [|clientID [|height args]]; [done| |done].
  rewrite GetConsensusState_run.
  unfold cobra.Execute. cbn. rewrite GetBool_given, Exec_bind_ret.
  destruct (String.eqb (strings.TrimSpace clientID) ""); [reflexivity|].
  apply (run_query _ _ _ PConsensusStateResponse).
Qed.

Lemma Execute_GetCmdQueryRoot (args : list string)
    (given : gmap string bool) :
  cobra.Execute (cli.GetCmdQueryRoot queryRoute cdc) args given =
    match args with
    | [clientID; height] =>
        GetCommitmentRoot queryRoute cdc clientID height (given !! FlagProve)
    | _ => (Returned (cobra.ExactArgs 2 args), [])
    end.
Proof.
  destruct args as [|clientID [|height [|extra args]]]; [done|done| |done].
  rewrite GetCommitmentRoot_run.
  unfold cobra.Execute. cbn. rewrite GetBool_given, Exec_bind_ret.
  destruct (String.eqb (strings.TrimSpace clientID) ""); [reflexivity|].
  rewrite Exec_bind_ret.
  destruct (strconv.ParseUint height) as [h err]. cbn [fst snd].
  destruct (is_Some_bool err); [reflexivity|].
  apply (run_query _ _ _ PRootResponse).
Qed.

Lemma Execute_GetCmdQueryHeader (args : list string)
    (given : gmap string bool) :
  cobra.Execute (cli.GetCmdQueryHeader cdc) args given = GetLatestHeader cdc.
Proof. reflexivity. Qed.

Lemma Execute_GetCmdNodeConsensusState (args : list string)
    (given : gmap string bool) :
  cobra.Execute (cli.GetCmdNodeConsensusState queryRoute cdc) args given =
    match args with
    | [] => GetNodeConsensusState queryRoute cdc
    | _ => (Returned (cobra.ExactArgs 0 args), [])
    end.
Proof. by destruct args. Qed.

Lemma Execute_GetCmdQueryPath (args : list string)
    (given : gmap string bool) :
  cobra.Execute (cli.GetCmdQueryPath storeName cdc) args given
  = GetCommitmentPrefix storeName cdc.
Proof. reflexivity. Qed.

Lemma ExactArgs_wrong (n : nat) (args : list string) :
  List.length args <> n ->
  cobra.ExactArgs n args
  = Some (fmt.Errorf "accepts %d arg(s), received %d"
            [fmt.int (Z.of_nat n); fmt.int (Z.of_nat (List.length args))]).
Proof.
  intros Hn. unfold cobra.ExactArgs.
  by destruct (Nat.eqb_spec (List.length args) n).
Qed.

(** How the runs of the five query commands can look. *)
Lemma query_command_runs (cmd : cobra.Command) (args : list string)
    (given : gmap string bool) :
  In cmd (query_commands queryRoute cdc) ->
  (exists e, cobra.Execute cmd args given = (Returned (Some e), []))
  \/ (exists q e, is_query q = true
        /\ cobra.Execute cmd args given = (Returned (Some e), [q]))
  \/ (exists q cliCtx v err, is_query q = true
        /\ cobra.Execute cmd args given
           = (Returned err, [q; CallPrintOutput cliCtx v])).
Proof.
  intros Hcmd. cbn in Hcmd.
  destruct Hcmd as [<-|[<-|[<-|[<-|[<-|[]]]]]].
  - rewrite Execute_GetCmdQueryClientState.
    destruct args as [|clientID [|height args]];
      [left; by eexists| |left; by eexists].
    rewrite GetClientState_run.
    destruct (String.eqb _ _); [left; by eexists|]. cbn zeta.
    destruct (QueryClientState _ _ _) as [res [e|]];
      right; [left|right]; by repeat eexists.
  - rewrite Execute_GetCmdQueryConsensusState.
    destruct args as [|clientID [|height args]];
      [left; by eexists| |left; by eexists].
    rewrite GetConsensusState_run.
    destruct (String.eqb _ _); [left; by eexists|]. cbn zeta.
    destruct (QueryConsensusStateProof _ _ _) as [res [e|]];
      right; [left|right]; by repeat eexists.
  - rewrite Execute_GetCmdQueryRoot.
    destruct args as [|clientID [|height [|extra args]]];
      [left; by eexists|left; by eexists| |left; by eexists].
    rewrite GetCommitmentRoot_run.
    destruct (String.eqb _ _); [left; by eexists|].
    destruct (is_Some_bool _); [left; by eexists|]. cbn zeta.
    destruct (QueryCommitmentRoot _ _ _ _) as [res [e|]];
      right; [left|right]; by repeat eexists.
  - rewrite Execute_GetCmdQueryHeader, GetLatestHeader_run. cbn zeta.
    destruct (QueryTendermintHeader _) as [[header aux] [e|]];
      right; [left|right]; by repeat eexists.
  - rewrite Execute_GetCmdNodeConsensusState.
    destruct args as [|extra args]; [|left; by eexists].
    rewrite GetNodeConsensusState_run. cbn zeta.
    destruct (QueryNodeConsensusState _) as [[state aux] [e|]];
      right; [left|right]; by repeat eexists.
Qed.

(** X1. A command that validates the number of its arguments, run on
    another number of them, returns the error "accepts n arg(s), received
    m" of [cobra.ExactArgs]; its body does not run: nothing is asked and
    nothing is printed. *)
Theorem wrong_arity_rejected (cmd : cobra.Command) (n : nat)
    (args : list string) (given : gmap string bool) :
  In (cmd, n) (commands_with_arity queryRoute cdc) ->
  List.length args <> n ->
  cobra.Execute cmd args given
  = (Returned (Some (fmt.Errorf "accepts %d arg(s), received %d"
                       [fmt.int (Z.of_nat n);
                        fmt.int (Z.of_nat (List.length args))])), []).
Proof.
  intros Hcmd Hn. cbn in Hcmd.
  destruct Hcmd as [[= <- <-]|[[= <- <-]|[[= <- <-]|[[= <- <-]|[]]]]].
  - rewrite Execute_GetCmdQueryClientState.
    destruct args as [|clientID [|height args]]; try done;
      by rewrite ExactArgs_wrong.
  - rewrite Execute_GetCmdQueryConsensusState.
    destruct args as [|clientID [|height args]]; try done;
      by rewrite ExactArgs_wrong.
  - rewrite Execute_GetCmdQueryRoot.
    destruct args as [|clientID [|height [|extra args]]]; try done;
      by rewrite ExactArgs_wrong.
  - rewrite Execute_GetCmdNodeConsensusState.
    destruct args as [|extra args]; try done; by rewrite ExactArgs_wrong.
Qed.

(** X2. No command of query.go panics: on any arguments and flags, and
    whatever the collaborators answer, each of the six commands returns.
    The bodies index [args] without a check of their own; the validators
    of the commands keep the indices in range. *)
Theorem commands_never_panic (cmd : cobra.Command) (args : list string)
    (given : gmap string bool) :
  In cmd (commands queryRoute storeName cdc) ->
  exists err, (cobra.Execute cmd args given).1 = Returned err.
Proof.
  unfold commands. rewrite in_app_iff. intros [Hcmd|[<-|[]]].
  - destruct (query_command_runs cmd args given Hcmd)
      as [[e ->]|[(q & e & _ & ->)|(q & cliCtx & v & err & _ & ->)]];
      by eexists.
  - by eexists.
Qed.

(** X3. A run of one of the five query commands asks at most one query,
    prints at most once, prints only after it has asked, and asks nothing
    after it has printed. *)
Theorem one_query_then_one_print (cmd : cobra.Command) (args : list string)
    (given : gmap string bool) :
  In cmd (query_commands queryRoute cdc) ->
  (cobra.Execute cmd args given).2
  = queries (cobra.Execute cmd args given).2
    ++ prints (cobra.Execute cmd args given).2
  /\ (List.length (prints (cobra.Execute cmd args given).2)
       <= List.length (queries (cobra.Execute cmd args given).2) <= 1)%nat.
Proof.
  intros Hcmd.
  destruct (query_command_runs cmd args given Hcmd)
    as [[e ->]|[(q & e & Hq & ->)|(q & cliCtx & v & err & Hq & ->)]];
    unfold queries, prints; cbn; rewrite ?Hq; cbn; split; (done || lia).
Qed.



End more_runs.

(** ** UTF-8 decoding in arithmetic *)

Lemma byte_val_range (c : ascii) : 0 <= byte_val c < 256.
Proof.
  unfold byte_val. pose proof (N_ascii_bounded c) as Hc. lia.
Qed.

Lemma byte_of_val (c : ascii) : byte_of (byte_val c) = c.
Proof.
  unfold byte_of, byte_val. by rewrite N2Z.id, ascii_N_embedding.
Qed.

(** On a multiple of 2^n and a number below 2^n, [Z.lor] adds. *)
Lemma lor_add_low (a b n : Z) :
  0 <= n -> a mod 2 ^ n = 0 -> 0 <= b < 2 ^ n -> Z.lor a b = a + b.
Proof.
  intros Hn Ha Hb.
  rewrite <- (Zbitwise.Z.add_lor_land a b).
  assert (Hland : Z.land a b = 0); [|rewrite Hland; lia].
  apply Z.bits_inj'. intros i Hi. rewrite Z.land_spec, Z.bits_0.
  destruct (Z.lt_ge_cases i n) as [Hlt|Hge].
  - rewrite (Z.div_mod a (2 ^ n)), Ha, Z.add_0_r, Z.mul_comm
      by (apply Z.pow_nonzero; lia).
    by rewrite Z.mul_pow2_bits_low.
  - destruct (Z.eq_dec b 0) as [->|Hb0]; [by rewrite Z.bits_0, andb_false_r|].
    rewrite (Z.bits_above_log2 b i), andb_false_r; [done|lia|].
    apply Z.log2_lt_pow2; [lia|].
    apply Z.lt_le_trans with (2 ^ n); [lia|].
    apply Z.pow_le_mono_r; lia.
Qed.

Lemma land_mask (x k : Z) : 0 <= k -> Z.land x (2 ^ k - 1) = x mod 2 ^ k.
Proof.
  intros Hk. rewrite <- Z.land_ones by done. f_equal.
  rewrite Z.ones_equiv. lia.
Qed.

Ltac mod_lia := Z.div_mod_to_equations; lia.

Lemma rune2_arith (s0 s1 : Z) :
  Z.lor (Z.shiftl (Z.land s0 utf8.mask2) 6) (Z.land s1 utf8.maskx)
  = s0 mod 32 * 64 + s1 mod 64.
Proof.
  change utf8.mask2 with (2 ^ 5 - 1). change utf8.maskx with (2 ^ 6 - 1).
  rewrite !land_mask, Z.shiftl_mul_pow2 by lia.
  change (2 ^ 5) with 32. change (2 ^ 6) with 64.
  apply (lor_add_low _ _ 6); [lia| |]; change (2 ^ 6) with 64; mod_lia.
Qed.

Lemma rune3_arith (s0 s1 s2 : Z) :
  Z.lor (Z.lor (Z.shiftl (Z.land s0 utf8.mask3) 12)
               (Z.shiftl (Z.land s1 utf8.maskx) 6))
        (Z.land s2 utf8.maskx)
  = s0 mod 16 * 4096 + s1 mod 64 * 64 + s2 mod 64.
Proof.
  change utf8.mask3 with (2 ^ 4 - 1). change utf8.maskx with (2 ^ 6 - 1).
  rewrite !land_mask, !Z.shiftl_mul_pow2 by lia.
  change (2 ^ 4) with 16. change (2 ^ 6) with 64. change (2 ^ 12) with 4096.
  rewrite (lor_add_low (s0 mod 16 * 4096) _ 12);
    [|lia|change (2 ^ 12) with 4096; mod_lia..].
  apply (lor_add_low _ _ 6); [lia| |]; change (2 ^ 6) with 64; mod_lia.
Qed.

Lemma rune4_arith (s0 s1 s2 s3 : Z) :
  Z.lor (Z.lor (Z.lor (Z.shiftl (Z.land s0 utf8.mask4) 18)
                      (Z.shiftl (Z.land s1 utf8.maskx) 12))
               (Z.shiftl (Z.land s2 utf8.maskx) 6))
        (Z.land s3 utf8.maskx)
  = s0 mod 8 * 262144 + s1 mod 64 * 4096 + s2 mod 64 * 64 + s3 mod 64.
Proof.
  change utf8.mask4 with (2 ^ 3 - 1). change utf8.maskx with (2 ^ 6 - 1).
  rewrite !land_mask, !Z.shiftl_mul_pow2 by lia.
  change (2 ^ 3) with 8. change (2 ^ 6) with 64. change (2 ^ 12) with 4096.
  change (2 ^ 18) with 262144.
  rewrite (lor_add_low (s0 mod 8 * 262144) _ 18);
    [|lia|change (2 ^ 18) with 262144; mod_lia..].
  rewrite (lor_add_low _ (s2 mod 64 * 64) 12);
    [|lia|change (2 ^ 12) with 4096; mod_lia..].
  apply (lor_add_low _ _ 6); [lia| |]; change (2 ^ 6) with 64; mod_lia.
Qed.

Lemma first_cases (s0 : Z) :
  0 <= s0 < 256 ->
  (s0 < 0x80 /\ utf8.first s0 = utf8.as_)
  \/ ((0x80 <= s0 < 0xC2 \/ 0xF5 <= s0) /\ utf8.first s0 = utf8.xx)
  \/ (0xC2 <= s0 <= 0xDF /\ utf8.first s0 = utf8.s1)
  \/ (s0 = 0xE0 /\ utf8.first s0 = utf8.s2)
  \/ ((0xE1 <= s0 <= 0xEC \/ 0xEE <= s0 <= 0xEF) /\ utf8.first s0 = utf8.s3)
  \/ (s0 = 0xED /\ utf8.first s0 = utf8.s4)
  \/ (s0 = 0xF0 /\ utf8.first s0 = utf8.s5)
  \/ (0xF1 <= s0 <= 0xF3 /\ utf8.first s0 = utf8.s6)
  \/ (s0 = 0xF4 /\ utf8.first s0 = utf8.s7).
Proof.
  intros Hs0. unfold utf8.first.
  repeat match goal with
  | |- context [?a <? ?b] => destruct (Z.ltb_spec a b)
  | |- context [?a =? ?b] => destruct (Z.eqb_spec a b)
  end; lia || (intuition lia).
Qed.

(** The row [x] of the table [first] fixes the width and the range of the
    second byte. *)
Ltac fix_row x :=
  let sz := eval vm_compute in (Z.to_nat (Z.land x 7)) in
  let accept := eval vm_compute in (utf8.acceptRanges (Z.shiftr x 4)) in
  let ascii := eval vm_compute in (utf8.as_ <=? x) in
  change (utf8.as_ <=? x) with ascii;
  change (Z.to_nat (Z.land x 7)) with sz;
  change (utf8.acceptRanges (Z.shiftr x 4)) with accept;
  cbv beta iota zeta.

(** The second, third or fourth byte is checked against its range. *)
Ltac check_byte c lo hi :=
  destruct (Z.ltb_spec (byte_val c) lo); [exact (decoded_invalid _ _)|];
  destruct (Z.ltb_spec hi (byte_val c)); [exact (decoded_invalid _ _)|];
  cbv beta iota delta [orb].

Ltac next_byte t c :=
  destruct t as [|c t]; [exact (decoded_invalid _ _)|];
  pose proof (byte_val_range c).

Ltac decode2 c0 c1 t :=
  next_byte t c1;
  change (S (String.length (String c1 t)) <? 2)%nat with false; cbv iota;
  change (byte_at (String c0 (String c1 t)) 1) with (byte_val c1);
  cbn [fst snd]; check_byte c1 128 191;
  change (2 <=? 2)%nat with true; cbn [fst snd];
  rewrite rune2_arith;
  replace (byte_val c0 mod 32 * 64 + byte_val c1 mod 64)
    with ((byte_val c0 - 192) * 64 + (byte_val c1 - 128)) by mod_lia;
  constructor; lia.

Ltac decode3 c0 c1 c2 t lo hi :=
  next_byte t c1;
  next_byte t c2;
  change (S (String.length (String c1 (String c2 t))) <? 3)%nat with false;
  cbv iota;
  change (byte_at (String c0 (String c1 (String c2 t))) 1) with (byte_val c1);
  change (byte_at (String c0 (String c1 (String c2 t))) 2) with (byte_val c2);
  cbn [fst snd]; check_byte c1 lo hi;
  change (3 <=? 2)%nat with false; cbv iota;
  change utf8.locb with 128; change utf8.hicb with 191;
  check_byte c2 128 191;
  change (3 <=? 3)%nat with true; cbn [fst snd];
  rewrite rune3_arith;
  replace (byte_val c0 mod 16 * 4096 + byte_val c1 mod 64 * 64
           + byte_val c2 mod 64)
    with ((byte_val c0 - 224) * 4096 + (byte_val c1 - 128) * 64
          + (byte_val c2 - 128)) by mod_lia;
  constructor; lia.

Ltac decode4 c0 c1 c2 c3 t lo hi :=
  next_byte t c1; next_byte t c2; next_byte t c3;
  change (S (String.length (String c1 (String c2 (String c3 t)))) <? 4)%nat
    with false;
  cbv iota;
  change (byte_at (String c0 (String c1 (String c2 (String c3 t)))) 1)
    with (byte_val c1);
  change (byte_at (String c0 (String c1 (String c2 (String c3 t)))) 2)
    with (byte_val c2);
  change (byte_at (String c0 (String c1 (String c2 (String c3 t)))) 3)
    with (byte_val c3);
  cbn [fst snd]; check_byte c1 lo hi;
  change (4 <=? 2)%nat with false; cbv iota;
  change utf8.locb with 128; change utf8.hicb with 191;
  check_byte c2 128 191;
  change (4 <=? 3)%nat with false; cbv iota;
  check_byte c3 128 191;
  cbn [fst snd];
  rewrite rune4_arith;
  replace (byte_val c0 mod 8 * 262144 + byte_val c1 mod 64 * 4096
           + byte_val c2 mod 64 * 64 + byte_val c3 mod 64)
    with ((byte_val c0 - 240) * 262144 + (byte_val c1 - 128) * 4096
          + (byte_val c2 - 128) * 64 + (byte_val c3 - 128)) by mod_lia;
  constructor; lia.

(** [utf8.DecodeRuneInString] returns what [DecodedRune] allows. *)
Lemma DecodeRuneInString_cases (t : string) :
  DecodedRune t (utf8.DecodeRuneInString t).1 (utf8.DecodeRuneInString t).2.
Proof.
  destruct t as [|c0 t]; [constructor|].
  unfold utf8.DecodeRuneInString.
  change (String.length (String c0 t)) with (S (String.length t)).
  change (S (String.length t) <? 1)%nat with false. cbv iota.
  change (byte_at (String c0 t) 0) with (byte_val c0).
  pose proof (byte_val_range c0) as H0.
  destruct (first_cases (byte_val c0) H0)
    as [[Hr ->]|[[Hr ->]|[[Hr ->]|[[Hr ->]|[[Hr ->]|[[Hr ->]|[[Hr ->]|[[Hr ->]|[Hr ->]]]]]]]]].
  - by constructor.
  - constructor.
  - fix_row utf8.s1. decode2 c0 c1 t.
  - fix_row utf8.s2. decode3 c0 c1 c2 t 160 191.
  - fix_row utf8.s3. decode3 c0 c1 c2 t 128 191.
  - fix_row utf8.s4. decode3 c0 c1 c2 t 128 159.
  - fix_row utf8.s5. decode4 c0 c1 c2 c3 t 144 191.
  - fix_row utf8.s6. decode4 c0 c1 c2 c3 t 128 191.
  - fix_row utf8.s7. decode4 c0 c1 c2 c3 t 128 143.
Qed.

(** A white space rune is decoded from its encoding and from nothing
    else. *)
Lemma DecodeRuneInString_space (t : string) (r : Z) (size : nat) :
  utf8.DecodeRuneInString t = (r, size) ->
  unicode.IsSpace r = true ->
  t = utf8.EncodeRune r +:+ slice_from size t /\ (1 <= size)%nat.
Proof.
  intros Hdec Hsp.
  pose proof (DecodeRuneInString_cases t) as Hcases.
  rewrite Hdec in Hcases. cbn [fst snd] in Hcases.
  apply IsSpace_cases in Hsp. unfold space_runes in Hsp. cbn [In] in Hsp.
  inversion Hcases as
    [ | c0 t' | c0 t' H0 | c0 c1 t' H0 H1
    | c0 c1 c2 t' H0 H1 Hlo Hhi H2
    | c0 c1 c2 c3 t' H0 H1 Hlo Hhi H2 H3 ]; subst;
    try (unfold utf8.RuneError in Hsp; lia);
    repeat match goal with c : ascii |- _ =>
      lazymatch goal with
      | H : 0 <= byte_val c < 256 |- _ => fail
      | _ => pose proof (byte_val_range c)
      end
    end;
    (split; [|lia]);
    cbn [slice_from];
    repeat (destruct Hsp as [Hsp|Hsp]; [|]); try lia.
  all: rewrite <- Hsp.
  all: match goal with |- _ = utf8.EncodeRune ?v +:+ _ =>
         let e := eval vm_compute in (utf8.EncodeRune v) in
         change (utf8.EncodeRune v) with e
       end.
  all: cbv beta iota fix delta [String.append].
  all: repeat f_equal.
  all: match goal with |- ?c = ?k =>
         rewrite <- (byte_of_val c);
         replace (byte_val c) with (byte_val k)
           by (vm_compute (byte_val k); lia);
         apply byte_of_val
       end.
Qed.

(** ** Slices and blank strings *)

Lemma append_assoc (a b c : string) : (a +:+ b) +:+ c = a +:+ (b +:+ c).
Proof.
  induction a as [|x a IH]; [done|].
  change (String x ((a +:+ b) +:+ c) = String x (a +:+ (b +:+ c))).
  by rewrite IH.
Qed.

Lemma slice_to_from (n : nat) (s : string) :
  slice_to n s +:+ slice_from n s = s.
Proof.
  revert s. induction n as [|n IH]; intros [|c s]; cbn; try done.
  change (String c (slice_to n s +:+ slice_from n s) = String c s).
  by rewrite IH.
Qed.

Lemma slice_to_all (n : nat) (s : string) :
  (String.length s <= n)%nat -> slice_to n s = s.
Proof.
  revert s. induction n as [|n IH]; intros [|c s] Hn; cbn in *;
    try done; try lia.
  rewrite IH; [done|lia].
Qed.

Lemma slice_from_all (n : nat) (s : string) :
  (String.length s <= n)%nat -> slice_from n s = EmptyString.
Proof.
  revert s. induction n as [|n IH]; intros [|c s] Hn; cbn in *;
    try done; try lia.
  apply IH. lia.
Qed.

Lemma slice_from_length (n : nat) (s : string) :
  String.length (slice_from n s) = (String.length s - n)%nat.
Proof.
  revert s. induction n as [|n IH]; intros [|c s]; cbn; try done; try lia.
Qed.

Lemma slice_to_slice_to (i j : nat) (s : string) :
  (i <= j)%nat -> slice_to i (slice_to j s) = slice_to i s.
Proof.
  revert j s. induction i as [|i IH]; intros [|j] [|c s] Hij; cbn;
    try done; try lia.
  rewrite IH; [done|lia].
Qed.

Lemma slice_from_slice_to (i j : nat) (s : string) :
  slice_from i (slice_to (i + j) s) = slice_to j (slice_from i s).
Proof.
  revert s. induction i as [|i IH]; intros [|c s]; cbn; try done.
  by destruct j.
Qed.

Lemma length_append (a b : string) :
  String.length (a +:+ b) = (String.length a + String.length b)%nat.
Proof.
  induction a as [|x a IH]; [done|].
  change (S (String.length (a +:+ b)) = S (String.length a + String.length b)).
  by rewrite IH.
Qed.

Lemma EncodeRunes_app (rs1 rs2 : list Z) :
  EncodeRunes (rs1 ++ rs2) = EncodeRunes rs1 +:+ EncodeRunes rs2.
Proof.
  induction rs1 as [|r rs1 IH]; [done|].
  cbn [app EncodeRunes fold_right]. fold (EncodeRunes (rs1 ++ rs2)).
  fold (EncodeRunes rs1). by rewrite IH, append_assoc.
Qed.

Lemma blank_nil : blank EmptyString.
Proof. by exists []. Qed.

Lemma blank_cons (r : Z) (s : string) :
  unicode.IsSpace r = true -> blank s -> blank (utf8.EncodeRune r +:+ s).
Proof.
  intros Hr (rs & Hrs & ->). exists (r :: rs). split; [by constructor|done].
Qed.

Lemma blank_snoc (r : Z) (s : string) :
  unicode.IsSpace r = true -> blank s -> blank (s +:+ utf8.EncodeRune r).
Proof.
  intros Hr (rs & Hrs & ->). exists (rs ++ [r]). split.
  - apply Forall_app. split; [done|]. by constructor.
  - rewrite EncodeRunes_app. cbn [EncodeRunes fold_right].
    by rewrite append_empty_r.
Qed.

(** The rune at the head of a blank string that is not empty is white
    space. *)
Lemma DecodeRuneInString_blank (t : string) :
  blank t -> t <> EmptyString ->
  unicode.IsSpace (utf8.DecodeRuneInString t).1 = true.
Proof.
  intros (rs & Hrs & ->) Hne.
  destruct Hrs as [|r rs Hr Hrs]; [done|].
  cbn [EncodeRunes fold_right]. fold (EncodeRunes rs).
  generalize (EncodeRunes rs). intros s.
  apply IsSpace_cases in Hr. unfold space_runes in Hr. cbn [In] in Hr.
  repeat (destruct Hr as [<-|Hr]; [reflexivity|]). destruct Hr.
Qed.

(** ** The searches of [strings.TrimFunc] *)

(** Passing over [skip] bytes is a step to the slice behind them. *)
Lemma indexFunc_range_skip (f : Z -> bool) (truth : bool) (skip : nat) :
  forall (t : string) (i : Z),
    strings.indexFunc_range t f truth i skip
    = if (skip <=? String.length t)%nat
      then strings.indexFunc_range (slice_from skip t) f truth
             (i + Z.of_nat skip) 0
      else -1.
Proof.
  induction skip as [|skip IH]; intros t i.
  - cbn [Nat.leb slice_from]. by rewrite Z.add_0_r.
  - destruct t as [|c t]; [done|].
    cbn [strings.indexFunc_range String.length Nat.leb slice_from].
    rewrite IH. replace (i + 1 + Z.of_nat skip) with (i + Z.of_nat (S skip))
      by lia. done.
Qed.

(** One turn of the range loop of [indexFunc], at the head of a string
    that is not empty. *)
Lemma indexFunc_range_step (f : Z -> bool) (truth : bool) (c : ascii)
    (t : string) (i : Z) :
  strings.indexFunc_range (String c t) f truth i 0
  = if Bool.eqb (f (utf8.DecodeRuneInString (String c t)).1) truth then i
    else if ((utf8.DecodeRuneInString (String c t)).2
             <=? String.length (String c t))%nat
    then strings.indexFunc_range
           (slice_from (utf8.DecodeRuneInString (String c t)).2 (String c t))
           f truth (i + Z.of_nat (utf8.DecodeRuneInString (String c t)).2) 0
    else -1.
Proof.
  cbn [strings.indexFunc_range].
  pose proof (DecodeRuneInString_cases (String c t)) as Hcases.
  destruct (utf8.DecodeRuneInString (String c t)) as [r size].
  cbn [fst snd] in *.
  destruct (Bool.eqb (f r) truth); [done|].
  assert (Hsize : (1 <= size)%nat) by (inversion Hcases; lia).
  destruct size as [|size]; [lia|].
  rewrite indexFunc_range_skip.
  cbn [String.length Nat.leb slice_from Nat.sub].
  rewrite Nat.sub_0_r.
  replace (i + 1 + Z.of_nat size) with (i + Z.of_nat (S size)) by lia.
  done.
Qed.

Lemma DecodeRuneInString_size (c : ascii) (t : string) :
  (1 <= (utf8.DecodeRuneInString (String c t)).2)%nat.
Proof.
  pose proof (DecodeRuneInString_cases (String c t)) as Hcases.
  inversion Hcases; lia.
Qed.

(** A string in which [indexFunc] finds no rune that is not white space is
    blank. *)
Lemma indexFunc_range_none_blank (n : nat) :
  forall (t : string) (i : Z),
    (String.length t <= n)%nat -> 0 <= i ->
    strings.indexFunc_range t unicode.IsSpace false i 0 = -1 ->
    blank t.
Proof.
  induction n as [|n IH]; intros [|c t] i Hlen Hi Hidx;
    try apply blank_nil; cbn [String.length] in Hlen; [lia|].
  rewrite indexFunc_range_step in Hidx.
  pose proof (DecodeRuneInString_size c t) as Hsize.
  destruct (utf8.DecodeRuneInString (String c t)) as [r size] eqn:Hdec.
  cbn [fst snd] in *.
  destruct (unicode.IsSpace r) eqn:Hr; cbn [Bool.eqb] in Hidx; [|lia].
  destruct (DecodeRuneInString_space _ _ _ Hdec Hr) as [Ht _].
  rewrite Ht. apply blank_cons; [done|].
  destruct (Nat.leb_spec size (String.length (String c t))) as [Hle|Hgt].
  - apply (IH _ (i + Z.of_nat size)); [|lia|done].
    rewrite slice_from_length. cbn [String.length]. lia.
  - rewrite slice_from_all by lia. apply blank_nil.
Qed.

(** Where [indexFunc] finds a rune, the rune decoded there gives [f] the
    value looked for. *)
Lemma indexFunc_range_found (f : Z -> bool) (truth : bool) (n : nat) :
  forall (t : string) (i : Z),
    (String.length t <= n)%nat -> 0 <= i ->
    strings.indexFunc_range t f truth i 0 <> -1 ->
    exists k : nat,
      strings.indexFunc_range t f truth i 0 = i + Z.of_nat k
      /\ (k < String.length t)%nat
      /\ f (utf8.DecodeRuneInString (slice_from k t)).1 = truth.
Proof.
  induction n as [|n IH]; intros [|c t] i Hlen Hi Hidx;
    try done; cbn [String.length] in Hlen; [lia|].
  rewrite indexFunc_range_step in Hidx |- *.
  pose proof (DecodeRuneInString_size c t) as Hsize.
  destruct (Bool.eqb (f (utf8.DecodeRuneInString (String c t)).1) truth)
    eqn:Hf.
  - exists 0%nat. cbn [slice_from String.length].
    split; [lia|]. split; [lia|]. by apply eqb_prop.
  - set (size := (utf8.DecodeRuneInString (String c t)).2) in *.
    destruct (Nat.leb_spec size (String.length (String c t))) as [Hle|Hgt];
      [|done].
    destruct (IH (slice_from size (String c t)) (i + Z.of_nat size))
      as (k & Hk & Hlt & Hfk); [|lia|done|].
    { rewrite slice_from_length. cbn [String.length]. lia. }
    exists (size + k)%nat. rewrite Hk.
    rewrite slice_from_length in Hlt.
    split; [lia|]. split; [lia|].
    replace (slice_from (size + k) (String c t))
      with (slice_from k (slice_from size (String c t))); [done|].
    generalize (String c t). generalize size. clear.
    intros m. induction m as [|m IHm]; intros [|c' s]; cbn; try done.
    by destruct k.
Qed.

Lemma slice_from_last (n : nat) :
  forall s : string,
    String.length s = S n ->
    exists c, String.get n s = Some c /\ slice_from n s = String c EmptyString.
Proof.
  induction n as [|n IH]; intros [|c s] Hlen; cbn in Hlen; try lia.
  - destruct s; [|cbn in Hlen; lia]. by exists c.
  - destruct (IH s) as (c' & Hget & Hfrom); [lia|]. by exists c'.
Qed.

Lemma EncodeRune_ascii (c : ascii) :
  byte_val c < 0x80 -> utf8.EncodeRune (byte_val c) = String c EmptyString.
Proof.
  intros Hc. pose proof (byte_val_range c) as Hr. unfold utf8.EncodeRune.
  destruct (Z.leb_spec 0 (byte_val c)); [|lia].
  destruct (Z.leb_spec (byte_val c) 127); [|lia].
  cbn [andb]. by rewrite byte_of_val.
Qed.

(** A white space rune at the end of a string is decoded from its
    encoding, which ends the string. *)
Lemma DecodeLastRuneInString_space (v : string) (r : Z) (size : nat) :
  utf8.DecodeLastRuneInString v = (r, size) ->
  unicode.IsSpace r = true ->
  v = slice_to (String.length v - size) v +:+ utf8.EncodeRune r
  /\ (1 <= size <= String.length v)%nat.
Proof.
  unfold utf8.DecodeLastRuneInString. intros Hdec Hsp.
  destruct (Z.eqb_spec (Z.of_nat (String.length v)) 0) as [|Hlen].
  { injection Hdec as <- <-. discriminate. }
  destruct (String.length v) as [|n] eqn:Hn; [done|].
  destruct (slice_from_last n v Hn) as (c & Hget & Hlast).
  replace (Z.to_nat (Z.of_nat (S n) - 1)) with n in Hdec by lia.
  unfold byte_at in Hdec. rewrite Hget in Hdec.
  destruct (Z.ltb_spec (byte_val c) utf8.RuneSelf) as [Hascii|Hmulti].
  - injection Hdec as <- <-.
    replace (S n - 1)%nat with n by lia.
    rewrite EncodeRune_ascii by done. rewrite <- Hlast.
    by rewrite slice_to_from; split; [|lia].
  - match type of Hdec with
    | context [Z.max 0 (utf8.lastRuneStart ?s ?a ?b)] =>
        pose proof (lastRuneStart_le s b a) as Hle;
        set (start := Z.max 0 (utf8.lastRuneStart s a b)) in *
    end.
    assert (Hstart : 0 <= start <= Z.of_nat n) by lia.
    replace (Z.to_nat (Z.of_nat (S n))) with (S n) in Hdec by lia.
    assert (Hslice : slice (Z.to_nat start) (S n) v
                     = slice_from (Z.to_nat start) v).
    { unfold slice. apply slice_to_all. rewrite slice_from_length. lia. }
    rewrite Hslice in Hdec.
    destruct (utf8.DecodeRuneInString (slice_from (Z.to_nat start) v))
      as [r' size'] eqn:Hfwd.
    destruct (Z.eqb_spec (start + Z.of_nat size') (Z.of_nat (S n)))
      as [Hend|]; cbn [negb] in Hdec;
      [|injection Hdec as <- <-; discriminate].
    injection Hdec as <- <-.
    destruct (DecodeRuneInString_space _ _ _ Hfwd Hsp) as [Hw Hsize].
    rewrite (slice_from_all size' (slice_from (Z.to_nat start) v)) in Hw
      by (rewrite slice_from_length; lia).
    rewrite append_empty_r in Hw.
    replace (S n - size')%nat with (Z.to_nat start) by lia.
    rewrite <- Hw. by rewrite slice_to_from; split; [|lia].
Qed.

(** A string in which [lastIndexFunc] finds no rune that is not white
    space is blank. *)
Lemma lastIndexFunc_loop_none_blank (u : string) (fuel : nat) :
  forall i : nat,
    (i <= String.length u)%nat -> (i <= fuel)%nat ->
    strings.lastIndexFunc_loop u unicode.IsSpace false i fuel = -1 ->
    blank (slice_to i u).
Proof.
  induction fuel as [|fuel IH]; intros i Hlen Hfuel Hidx.
  - assert (i = 0%nat) as -> by lia. apply blank_nil.
  - cbn [strings.lastIndexFunc_loop] in Hidx.
    destruct (Nat.eqb_spec i 0) as [->|Hi]; [apply blank_nil|].
    destruct (utf8.DecodeLastRuneInString (slice_to i u)) as [r size]
      eqn:Hdec.
    destruct (unicode.IsSpace r) eqn:Hr; cbn [Bool.eqb] in Hidx; [|lia].
    destruct (DecodeLastRuneInString_space _ _ _ Hdec Hr) as [Hv Hsize].
    rewrite slice_to_length in Hv, Hsize by done.
    rewrite slice_to_slice_to in Hv by lia.
    rewrite Hv. apply blank_snoc; [done|].
    apply IH; [lia|lia|done].
Qed.

(** What [lastIndexFunc] finds lies within the string. *)
Lemma lastIndexFunc_loop_range (u : string) (f : Z -> bool) (truth : bool)
    (fuel : nat) :
  forall i : nat,
    (i <= String.length u)%nat ->
    strings.lastIndexFunc_loop u f truth i fuel = -1
    \/ 0 <= strings.lastIndexFunc_loop u f truth i fuel < Z.of_nat i.
Proof.
  induction fuel as [|fuel IH]; intros i Hlen; [by left|].
  cbn [strings.lastIndexFunc_loop].
  destruct (Nat.eqb_spec i 0) as [->|Hi]; [by left|].
  pose proof (DecodeLastRuneInString_size (slice_to i u)) as Hsize.
  rewrite slice_to_length in Hsize by done.
  destruct (utf8.DecodeLastRuneInString (slice_to i u)) as [r size].
  cbn [snd] in Hsize.
  destruct (Bool.eqb (f r) truth); [right; lia|].
  destruct (IH (i - size)%nat) as [->|Hin]; [lia|by left|right; lia].
Qed.

Lemma slice_to_nonempty (n : nat) (c : ascii) (t : string) :
  (1 <= n)%nat -> slice_to n (String c t) <> EmptyString.
Proof. by destruct n; [lia|]. Qed.

(** [TrimRightFunc] leaves nothing of blank strings only. *)
Lemma TrimRightFunc_empty (u : string) :
  strings.TrimRightFunc u unicode.IsSpace = EmptyString -> blank u.
Proof.
  unfold strings.TrimRightFunc, strings.lastIndexFunc. intros Htrim.
  destruct u as [|c u]; [apply blank_nil|].
  destruct (lastIndexFunc_loop_range (String c u) unicode.IsSpace false
              (String.length (String c u)) (String.length (String c u)))
    as [Hnone|Hin]; [lia| |].
  - rewrite <- (slice_to_all (String.length (String c u)) (String c u))
      by lia.
    by apply (lastIndexFunc_loop_none_blank _ (String.length (String c u))).
  - exfalso. revert Htrim.
    set (i := strings.lastIndexFunc_loop _ _ _ _ _) in *.
    destruct ((0 <=? i) && _).
    + pose proof (slice_from_length (Z.to_nat i) (String c u)) as Hl.
      destruct (slice_from (Z.to_nat i) (String c u)) as [|c' u'];
        [cbn [String.length] in Hl, Hin; lia|].
      pose proof (DecodeRuneInString_size c' u') as Hwid.
      destruct (utf8.DecodeRuneInString (String c' u')) as [r wid].
      cbn [snd] in Hwid. apply slice_to_nonempty. lia.
    + apply slice_to_nonempty. lia.
Qed.

(** [TrimFunc] leaves nothing of blank strings only. *)
Lemma TrimFunc_empty (t : string) :
  strings.TrimFunc t unicode.IsSpace = EmptyString -> blank t.
Proof.
  unfold strings.TrimFunc, strings.TrimLeftFunc, strings.indexFunc.
  destruct (Z.eqb_spec (strings.indexFunc_range t unicode.IsSpace false 0 0)
              (-1)) as [Hnone|Hfound].
  - intros _. by apply (indexFunc_range_none_blank (String.length t) t 0).
  - intros Htrim. apply TrimRightFunc_empty in Htrim.
    destruct (indexFunc_range_found unicode.IsSpace false (String.length t)
                t 0) as (k & Hk & Hlt & Hfk); [lia|lia|done|].
    rewrite Hk in Htrim.
    replace (Z.to_nat (0 + Z.of_nat k)) with k in Htrim by lia.
    apply DecodeRuneInString_blank in Htrim; [congruence|].
    intros Hnil. pose proof (slice_from_length k t) as Hl.
    rewrite Hnil in Hl. cbn in Hl. lia.
Qed.

(** ** [strings.TrimSpace] leaves nothing of blank strings only *)

Lemma DecodeRuneInString_ascii (c : ascii) (t : string) :
  byte_val c < 0x80 ->
  utf8.DecodeRuneInString (String c t) = (byte_val c, 1%nat).
Proof.
  intros Hc. unfold utf8.DecodeRuneInString.
  change (byte_at (String c t) 0) with (byte_val c).
  pose proof (byte_val_range c) as Hr.
  destruct (first_cases (byte_val c) Hr)
    as [[_ ->]|[[? _]|[[? _]|[[? _]|[[? _]|[[? _]|[[? _]|[[? _]|[? _]]]]]]]]];
    try lia.
  reflexivity.
Qed.

Lemma asciiSpace_IsSpace (c : Z) :
  0 <= c < 0x80 ->
  (strings.asciiSpace c =? 0) = negb (unicode.IsSpace c).
Proof.
  intros Hc. unfold strings.asciiSpace, unicode.IsSpace, unicode.MaxLatin1.
  destruct (Z.leb_spec 0 c); [|lia]. destruct (Z.leb_spec c 255); [|lia].
  cbn [andb].
  destruct (Z.eqb_spec c 133); [lia|]. destruct (Z.eqb_spec c 160); [lia|].
  rewrite !orb_false_r. by destruct (_ || _).
Qed.

(** From a byte of ASCII that is not white space at its head, the second
    loop of [TrimSpace] leaves a string that is not empty. *)
Lemma TrimSpace_stop_nonempty (c0 : ascii) (t : string) :
  byte_val c0 < 0x80 ->
  unicode.IsSpace (byte_val c0) = false ->
  forall stop : nat,
    (1 <= stop)%nat ->
    strings.TrimSpace_stop (String c0 t) stop <> EmptyString.
Proof.
  intros Hascii Hc0. pose proof (byte_val_range c0) as Hr.
  induction stop as [|k IH]; intros Hstop; [lia|].
  cbn [strings.TrimSpace_stop].
  destruct (utf8.RuneSelf <=? byte_at (String c0 t) k).
  - intros Htrim. apply TrimFunc_empty in Htrim.
    apply DecodeRuneInString_blank in Htrim; [|done].
    cbn [slice_to] in Htrim.
    rewrite DecodeRuneInString_ascii in Htrim by done. cbn [fst] in Htrim.
    congruence.
  - destruct (strings.asciiSpace (byte_at (String c0 t) k) =? 0) eqn:Hsp;
      [done|].
    destruct k as [|k].
    + change (byte_at (String c0 t) 0) with (byte_val c0) in Hsp.
      rewrite asciiSpace_IsSpace, Hc0 in Hsp by lia. done.
    + apply IH. lia.
Qed.

(** A string of which [strings.TrimSpace] leaves nothing is blank. *)
Lemma TrimSpace_empty_blank (s : string) :
  strings.TrimSpace s = EmptyString -> blank s.
Proof.
  unfold strings.TrimSpace.
  induction s as [|c0 s IH]; intros Htrim; [apply blank_nil|].
  cbn [strings.TrimSpace_start] in Htrim.
  pose proof (byte_val_range c0) as Hr.
  destruct (Z.leb_spec utf8.RuneSelf (byte_val c0)) as [|Hascii].
  { by apply TrimFunc_empty. }
  unfold utf8.RuneSelf in Hascii.
  rewrite asciiSpace_IsSpace in Htrim by lia.
  destruct (unicode.IsSpace (byte_val c0)) eqn:Hsp; cbn [negb] in Htrim.
  - change (String c0 s) with (String c0 EmptyString +:+ s).
    rewrite <- (EncodeRune_ascii c0) by lia.
    apply blank_cons; [done|]. by apply IH.
  - exfalso. revert Htrim. apply TrimSpace_stop_nonempty; [lia|done|].
    cbn [String.length]. lia.
Qed.

Lemma TrimSpace_not_blank (s : string) :
  ~ blank s -> String.eqb (strings.TrimSpace s) "" = false.
Proof.
  intros Hs. apply String.eqb_neq. intros Htrim.
  by apply Hs, TrimSpace_empty_blank.
Qed.

(** X6. [strings.TrimSpace], the test of the commands for a blank
    identifier, returns the empty string on the blank strings and on no
    other: a string of which nothing is left is the UTF-8 encoding of white
    space runes.  A string that holds a byte that is not part of such an
    encoding, also one that is not valid UTF-8, is not taken for blank. *)
Theorem TrimSpace_empty_iff_blank (s : string) :
  strings.TrimSpace s = EmptyString <-> blank s.
Proof.
  split; [apply TrimSpace_empty_blank | apply TrimSpace_blank].
Qed.

(** ** All of [strconv.ParseUint] *)

Lemma digit_prefix_digits (s : string) : all_digits (digit_prefix s) = true.
Proof.
  induction s as [|c s IH]; [done|]. cbn.
  destruct (is_digit c) eqn:Hc; [|done]. cbn. by rewrite Hc, IH.
Qed.

Lemma digit_prefix_all (s : string) :
  all_digits s = true -> digit_prefix s = s.
Proof.
  induction s as [|c s IH]; [done|]. cbn.
  intros [Hc Hs]%andb_true_iff. by rewrite Hc, IH.
Qed.

(** The loop of [ParseUint], on any string: an overflow among the leading
    digits is a range error, a byte that is no digit before any overflow
    is a syntax error, and a string of digits without overflow gives its
    number. *)
Lemma ParseUint_loop_all (s0 s : string) :
  forall n, 0 <= n < 2 ^ 64 ->
    strconv.ParseUint_loop s0 s n =
      if decimal_value_from n (digit_prefix s) <? 2 ^ 64
      then if all_digits s then (decimal_value_from n s, None)
           else (0, Some (strconv.syntaxError strconv.fnParseUint s0))
      else (strconv.maxVal, Some (strconv.rangeError strconv.fnParseUint s0)).
Proof.
  induction s as [|c s IH]; intros n Hn.
  - cbn. destruct (Z.ltb_spec n (2 ^ 64)); [reflexivity | lia].
  - cbn [strconv.ParseUint_loop digit_prefix all_digits].
    destruct (is_digit c) eqn:Hc.
    + pose proof (is_digit_val c Hc) as Hd.
      unfold is_digit in Hc. rewrite Hc. cbn [decimal_value_from andb].
      pose proof (decimal_value_from_ge (digit_prefix s)
                    (digit_prefix_digits s) (10 * n + (byte_val c - 48)))
        as Hge.
      unfold strconv.base, strconv.cutoff, strconv.maxUint64.
      destruct (Z.leb_spec 10 (byte_val c - 48)); [lia|].
      change (2 ^ 64 - 1) with 18446744073709551615.
      change (18446744073709551615 / 10 + 1) with 1844674407370955162.
      destruct (Z.leb_spec 1844674407370955162 n) as [Hcut|Hcut].
      { destruct (Z.ltb_spec
                    (decimal_value_from (10 * n + (byte_val c - 48))
                       (digit_prefix s)) (2 ^ 64)); [lia | reflexivity]. }
      unfold strconv.wrap64.
      rewrite (Z.mod_small (n * 10)) by lia.
      change strconv.maxVal with 18446744073709551615.
      destruct (Z.ltb_spec (10 * n + (byte_val c - 48)) (2 ^ 64))
        as [Hfit|Hover].
      * rewrite (Z.mod_small (n * 10 + _)) by lia.
        destruct (Z.ltb_spec (n * 10 + (byte_val c - 48)) (n * 10)); [lia|].
        destruct (Z.ltb_spec 18446744073709551615
                    (n * 10 + (byte_val c - 48))); [lia|]. cbn [orb].
        rewrite IH by lia. by rewrite (Z.mul_comm n 10).
      * assert (Hwrap : (n * 10 + (byte_val c - 48)) mod 2 ^ 64
                        = n * 10 + (byte_val c - 48) - 2 ^ 64).
        { symmetry. apply Z.mod_unique with (q := 1); lia. }
        rewrite Hwrap.
        destruct (Z.ltb_spec (n * 10 + (byte_val c - 48) - 2 ^ 64) (n * 10));
          [|lia]. cbn [orb].
        destruct (Z.ltb_spec
                    (decimal_value_from (10 * n + (byte_val c - 48))
                       (digit_prefix s)) (2 ^ 64)); [lia | reflexivity].
    + cbn [decimal_value_from andb].
      destruct (Z.ltb_spec n (2 ^ 64)); [|lia].
      unfold is_digit in Hc. rewrite Hc.
      destruct ((97 <=? strconv.lower (byte_val c))
                && (strconv.lower (byte_val c) <=? 122)) eqn:Hletter;
        [|reflexivity].
      apply andb_true_iff in Hletter as [Hlo _]. apply Z.leb_le in Hlo.
      unfold strconv.base.
      destruct (Z.leb_spec 10 (strconv.lower (byte_val c) - 97 + 10));
        [reflexivity | lia].
Qed.

(** X7. All of [strconv.ParseUint(s, 10, 64)], the parser of the height:
    the empty string is a syntax error; an overflow of 64 bits among the
    leading digits is a range error with the value 2^64 - 1, also when a
    byte that is no digit follows; otherwise a byte that is no digit (a
    sign, a letter, a space) is a syntax error with the value 0; and a
    string of digits gives the number it denotes, leading zeros
    included.  The value returned is always below 2^64. *)
Theorem ParseUint_all (s : string) :
  strconv.ParseUint s =
    (if String.eqb s "" then
       (0, Some (NumError "ParseUint" s strconv.ErrSyntax))
     else if 2 ^ 64 <=? decimal_value (digit_prefix s) then
       (2 ^ 64 - 1, Some (NumError "ParseUint" s strconv.ErrRange))
     else if all_digits s then (decimal_value s, None)
     else (0, Some (NumError "ParseUint" s strconv.ErrSyntax)))
  /\ 0 <= (strconv.ParseUint s).1 < 2 ^ 64.
Proof.
  assert (Heq : strconv.ParseUint s =
    (if String.eqb s "" then
       (0, Some (NumError "ParseUint" s strconv.ErrSyntax))
     else if 2 ^ 64 <=? decimal_value (digit_prefix s) then
       (2 ^ 64 - 1, Some (NumError "ParseUint" s strconv.ErrRange))
     else if all_digits s then (decimal_value s, None)
     else (0, Some (NumError "ParseUint" s strconv.ErrSyntax)))).
  { unfold strconv.ParseUint, decimal_value.
    destruct (String.eqb s ""); [reflexivity|].
    rewrite ParseUint_loop_all by lia.
    destruct (Z.ltb_spec (decimal_value_from 0 (digit_prefix s)) (2 ^ 64));
      destruct (Z.leb_spec (2 ^ 64) (decimal_value_from 0 (digit_prefix s)));
      try lia; reflexivity. }
  split; [exact Heq|]. rewrite Heq.
  destruct (String.eqb s ""); [cbn; lia|].
  destruct (Z.leb_spec (2 ^ 64) (decimal_value (digit_prefix s)));
    [cbn; lia|].
  destruct (all_digits s) eqn:Hs; [|cbn; lia].
  rewrite digit_prefix_all in * by done. cbn [fst].
  pose proof (decimal_value_from_ge s Hs 0). unfold decimal_value in *. lia.
Qed.

(** ** What reaches the queries *)

Section asked.
Context `{Collaborators}.
Variables (queryRoute storeName : string) (cdc : Codec).

(** X8. An identifier that is not blank reaches the query as the caller
    wrote it: the commands trim it for the test only, so white space
    around it is passed on; and the query gets the [prove] flag of the
    caller, or [true] when the caller gave none. *)
Theorem identifier_passed_unchanged (clientID : string)
    (prove : option bool) :
  ~ blank clientID ->
  queries (GetClientState queryRoute cdc clientID prove).2
    = [CallQueryClientState (WithCodec NewCLIContext cdc) clientID
         (default true prove)]
  /\ queries (GetConsensusState queryRoute cdc clientID prove).2
    = [CallQueryConsensusStateProof (WithCodec NewCLIContext cdc) clientID
         (default true prove)].
Proof.
  intros Hid. apply TrimSpace_not_blank in Hid.
  rewrite GetClientState_run, GetConsensusState_run, Hid. cbn zeta.
  split.
  - by destruct (QueryClientState _ _ _) as [res [e|]].
  - by destruct (QueryConsensusStateProof _ _ _) as [res [e|]].
Qed.

(** X9. A height token that is the numeral of an unsigned integer of 64
    bits is parsed to the number it denotes, and the root is asked for at
    that height, for the identifier as the caller wrote it. *)
Theorem height_parsed_and_passed (clientID height : string)
    (prove : option bool) :
  ~ blank clientID ->
  uint64_numeral height = true ->
  queries (GetCommitmentRoot queryRoute cdc clientID height prove).2
    = [CallQueryCommitmentRoot (WithCodec NewCLIContext cdc) clientID
         (decimal_value height) (default true prove)]
  /\ 0 <= decimal_value height < 2 ^ 64.
Proof.
  intros Hid Htok. apply TrimSpace_not_blank in Hid.
  rewrite GetCommitmentRoot_run, Hid.
  rewrite ParseUint_error, Htok, (ParseUint_value _ Htok).
  cbn [negb fst]. cbn zeta. split.
  - by destruct (QueryCommitmentRoot _ _ _ _) as [res [e|]].
  - unfold uint64_numeral, decimal_numeral in Htok.
    apply andb_true_iff in Htok as [[_ Hs]%andb_true_iff Hlt%Z.ltb_lt].
    pose proof (decimal_value_from_ge height Hs 0).
    unfold decimal_value in *. lia.
Qed.

(** X10. Two height tokens that denote the same number give the same run
    of GetCommitmentRoot: leading zeros make no difference. *)
Theorem same_height_same_run (clientID height height' : string)
    (prove : option bool) :
  uint64_numeral height = true ->
  uint64_numeral height' = true ->
  decimal_value height = decimal_value height' ->
  GetCommitmentRoot queryRoute cdc clientID height prove
  = GetCommitmentRoot queryRoute cdc clientID height' prove.
Proof.
  intros Htok Htok' Heq. rewrite !GetCommitmentRoot_run.
  rewrite !ParseUint_error, Htok, Htok'.
  by rewrite (ParseUint_value _ Htok), (ParseUint_value _ Htok'), Heq.
Qed.


End asked.

(** ** The further properties at work *)

Lemma wrong_arity_rejected_witness :
  List.length ["alice"%string] <> 2%nat
  /\ cobra.Execute
       (@cli.GetCmdQueryRoot _
          (store.node store.sample_hashes store.sample_store) "ibc" tt)
       ["alice"%string] ∅
     = (Returned (Some (errorString "accepts 2 arg(s), received 1")), []).
Proof.
  assert (Hn : List.length ["alice"%string] <> 2%nat) by (cbn; lia).
  split; [exact Hn|].
  rewrite (@wrong_arity_rejected _
             (store.node store.sample_hashes store.sample_store) "ibc" tt
             _ 2%nat ["alice"%string] ∅); [reflexivity| |exact Hn].
  unfold commands_with_arity. cbn [In]. right. right. left. reflexivity.
Defined.

Lemma commands_never_panic_witness :
  exists err,
    (cobra.Execute
       (@cli.GetCmdQueryClientState _
          (store.node store.sample_hashes store.sample_store) "ibc" tt)
       [] ∅).1 = Returned err.
Proof.
  apply (@commands_never_panic _
           (store.node store.sample_hashes store.sample_store)
           "ibc" "ibc" tt).
  unfold commands, query_commands. cbn [In app]. left. reflexivity.
Defined.

Lemma one_query_then_one_print_witness :
  (List.length
     (prints (cobra.Execute
        (@cli.GetCmdQueryRoot _
           (store.node store.sample_hashes store.sample_store) "ibc" tt)
        ["alice"%string; "100"%string] ∅).2)
   <= List.length
        (queries (cobra.Execute
           (@cli.GetCmdQueryRoot _
              (store.node store.sample_hashes store.sample_store) "ibc" tt)
           ["alice"%string; "100"%string] ∅).2) <= 1)%nat.
Proof.
  apply (@one_query_then_one_print _
           (store.node store.sample_hashes store.sample_store) "ibc" tt).
  unfold query_commands. cbn [In]. right. right. left. reflexivity.
Defined.



Lemma identifier_passed_unchanged_witness :
  ~ blank " alice "
  /\ queries (@GetClientState _
                (store.node store.sample_hashes store.sample_store)
                "ibc" tt " alice " (Some false)).2
     = [@CallQueryClientState store.types tt " alice " false].
Proof.
  assert (Hid : ~ blank " alice ").
  { intros Hid. apply TrimSpace_blank in Hid. vm_compute in Hid.
    discriminate. }
  split; [exact Hid|].
  destruct (@identifier_passed_unchanged _
              (store.node store.sample_hashes store.sample_store)
              "ibc" tt " alice " (Some false) Hid) as [Hstate _].
  exact Hstate.
Defined.

Lemma height_parsed_and_passed_witness :
  ~ blank "alice"
  /\ uint64_numeral "0100" = true
  /\ queries (@GetCommitmentRoot _
                (store.node store.sample_hashes store.sample_store)
                "ibc" tt "alice" "0100" None).2
     = [@CallQueryCommitmentRoot store.types tt "alice" 100 true].
Proof.
  assert (Hid : ~ blank "alice").
  { intros Hid. apply TrimSpace_blank in Hid. vm_compute in Hid.
    discriminate. }
  assert (Htok : uint64_numeral "0100" = true) by reflexivity.
  split; [exact Hid|]. split; [exact Htok|].
  destruct (@height_parsed_and_passed _
              (store.node store.sample_hashes store.sample_store)
              "ibc" tt "alice" "0100" None Hid Htok) as [Hroot _].
  exact Hroot.
Defined.

Lemma same_height_same_run_witness :
  decimal_value "100" = decimal_value "0100"
  /\ @GetCommitmentRoot _ (store.node store.sample_hashes store.sample_store)
       "ibc" tt "alice" "100" None
     = @GetCommitmentRoot _ (store.node store.sample_hashes store.sample_store)
         "ibc" tt "alice" "0100" None.
Proof.
  assert (Heq : decimal_value "100" = decimal_value "0100") by reflexivity.
  split; [exact Heq|].
  exact (@same_height_same_run _
           (store.node store.sample_hashes store.sample_store)
           "ibc" tt "alice" "100" "0100" None eq_refl eq_refl Heq).
Defined.

